(** * The batch-submission controller of the add-ten-words client

    A shallow embedding of the two [AddWords] components of the repository:

    - the [useState] component (source file [unnamed/part_003], whose
      header comment reads [frontend/src/components/AddWords.tsx]): local
      duplicate pre-check, server validation, pessimistic submit with 409
      handling;
    - the [useReducer] component ([src/components/AddWords.tsx]): a single
      reducer, optimistic submit with snapshot rollback;

    and of the text that [exportCsv] of the dashboard
    ([src/components/Dashboard.tsx]) writes.

    Modelling conventions.
    - A JS string is a [string]: a sequence of 8-bit code units, read as the
      Latin-1 range of UTF-16.  [trim], [\s] and [toLowerCase] are the
      ECMAScript ones restricted to that range.
    - A [Record<string, string>] is a plain object: a [gmap string string]
      of its own properties under [Object.prototype].  [hasOwnProperty] and
      a computed key in an object literal see the own properties alone; a
      read [o[k]] also finds what the prototype holds under [constructor],
      [__proto__], [toString], ..., which is not a string, and the
      assignment [o.__proto__ = v] goes to the setter of the prototype and
      defines nothing ([JsObject]).  A [TypeError] thrown by a call on such
      a value is the [None] of an [option].
    - [new Set(xs).size] is the size of a [gset]; a [Map] whose iteration
      order is observed is an insertion-ordered association list.
    - An event handler runs to completion; what the network answers is an
      argument of the handler, and the requests it sends are returned next
      to the new state. *)

From Stdlib Require Import Ascii String NArith Lia.
From stdpp Require Import base decidable option list gmap strings fin_sets pretty.

Local Open Scope string_scope.
Local Open Scope list_scope.

(** ** JavaScript string primitives *)

Module Js.

(** White space and line terminators of ECMAScript below U+0100:
    TAB, LF, VT, FF, CR, SP, NBSP. *)
Definition isWhiteSpace (c : ascii) : bool :=
  match N_of_ascii c with
  | 9%N | 10%N | 11%N | 12%N | 13%N | 32%N | 160%N => true
  | _ => false
  end.

(** [String.prototype.toLowerCase] on one code unit: A-Z and the Latin-1
    capitals U+00C0..U+00DE (without the multiplication sign U+00D7). *)
Definition lowerChar (c : ascii) : ascii :=
  let n := N_of_ascii c in
  if ((65 <=? n) && (n <=? 90) ||
      (192 <=? n) && (n <=? 222) && negb (n =? 215))%N
  then ascii_of_N (n + 32) else c.

Fixpoint toLowerCase (s : string) : string :=
  match s with
  | EmptyString => EmptyString
  | String c s' => String (lowerChar c) (toLowerCase s')
  end.

Fixpoint trimStart (s : string) : string :=
  match s with
  | EmptyString => EmptyString
  | String c s' => if isWhiteSpace c then trimStart s' else s
  end.

Fixpoint trimEnd (s : string) : string :=
  match s with
  | EmptyString => EmptyString
  | String c s' =>
      match trimEnd s' with
      | EmptyString => if isWhiteSpace c then EmptyString
                       else String c EmptyString
      | r => String c r
      end
  end.

(** [String.prototype.trim]. *)
Definition trim (s : string) : string := trimEnd (trimStart s).

(** A string that does not begin with white space. *)
Definition startsClean (s : string) : Prop :=
  match s with
  | EmptyString => True
  | String c _ => isWhiteSpace c = false
  end.

(** Some code unit of the string satisfies [p]. *)
Fixpoint anyChar (p : ascii -> bool) (s : string) : bool :=
  match s with
  | EmptyString => false
  | String c s' => p c || anyChar p s'
  end.

(** JS truthiness of a string: [Boolean(s)], [!s] negated. *)
Definition truthy (s : string) : bool :=
  match s with EmptyString => false | _ => true end.

(** [s.split(/[class]+/)] for a character class [d].  The result keeps
    the empty string before a leading and after a trailing separator, and
    the empty input gives one empty string. *)
Fixpoint splitFrom (d : ascii -> bool) (inSep : bool) (tok : string)
         (s : string) : list string :=
  match s with
  | EmptyString => [tok]
  | String c s' =>
      if d c
      then if inSep then splitFrom d true EmptyString s'
           else tok :: splitFrom d true EmptyString s'
      else splitFrom d false (tok +:+ String c EmptyString) s'
  end.

Definition split (d : ascii -> bool) (s : string) : list string :=
  splitFrom d false EmptyString s.

(** [Boolean] as the predicate of [Array.prototype.filter]. *)
Definition filterBoolean (l : list string) : list string :=
  List.filter truthy l.

(** [arr.slice(0, n)]. *)
Definition slice0 {A} (n : nat) (l : list A) : list A := take n l.

(** [new Set(xs).size]. *)
Definition setSize (xs : list string) : nat :=
  size (list_to_set xs : gset string).

(** A [Map<string, number>] with its insertion order: [get] and [set]. *)
Fixpoint mapGet (k : string) (m : list (string * nat)) : option nat :=
  match m with
  | [] => None
  | (k', v) :: m' => if decide (k' = k) then Some v else mapGet k m'
  end.

Fixpoint mapSet (k : string) (v : nat) (m : list (string * nat))
  : list (string * nat) :=
  match m with
  | [] => [(k, v)]
  | (k', v') :: m' =>
      if decide (k' = k) then (k', v) :: m' else (k', v') :: mapSet k v m'
  end.

(** A [Map<string, A>] in general, for the maps whose values are not
    counters. *)
Fixpoint mapGetA {A} (k : string) (m : list (string * A)) : option A :=
  match m with
  | [] => None
  | (k', v) :: m' => if decide (k' = k) then Some v else mapGetA k m'
  end.

Fixpoint mapSetA {A} (k : string) (v : A) (m : list (string * A))
  : list (string * A) :=
  match m with
  | [] => [(k, v)]
  | (k', v') :: m' =>
      if decide (k' = k) then (k', v) :: m' else (k', v') :: mapSetA k v m'
  end.

(** [s.includes(c)] for a one-character pattern. *)
Definition includesChar (c : ascii) (s : string) : bool :=
  anyChar (Ascii.eqb c) s.

(** [arr.join(sep)]. *)
Definition join (sep : string) (l : list string) : string :=
  String.concat sep l.

End Js.

(** ** Plain objects used as maps *)

Module JsObject.

(** The property names a plain object inherits from [Object.prototype]. *)
Definition prototypeNames : list string :=
  ["constructor"; "__defineGetter__"; "__defineSetter__"; "hasOwnProperty";
   "__lookupGetter__"; "__lookupSetter__"; "isPrototypeOf";
   "propertyIsEnumerable"; "toString"; "valueOf"; "__proto__";
   "toLocaleString"].

(** The value of [o[k]]: [undefined], an own string, or what the prototype
    holds under an inherited name: a function, or the prototype itself for
    [__proto__].  Such a value is truthy, differs from [undefined] and
    [null], and has no [trim]. *)
Inductive Value :=
| Undefined
| Str (s : string)
| Inherited.

(** [o[k]]. *)
Definition get (o : gmap string string) (k : string) : Value :=
  match o !! k with
  | Some v => Str v
  | None => if bool_decide (k ∈ prototypeNames) then Inherited else Undefined
  end.

(** [o[k] = v] for a string [v].  An inherited method is a writable data
    property, so the assignment defines an own property; [__proto__] is an
    accessor of the prototype whose setter ignores a string, so without an
    own [__proto__] nothing is defined. *)
Definition assign (o : gmap string string) (k v : string)
  : gmap string string :=
  if bool_decide (k = "__proto__") then
    match o !! k with
    | Some _ => <[k := v]> o
    | None => o
    end
  else <[k := v]> o.

(** [arr.map(f)] for a callback that may throw: the first exception ends
    the call. *)
Fixpoint mapThrowing {A B} (f : A -> option B) (l : list A)
  : option (list B) :=
  match l with
  | [] => Some []
  | x :: l' =>
      match f x with
      | Some y =>
          match mapThrowing f l' with
          | Some ys => Some (y :: ys)
          | None => None
          end
      | None => None
      end
  end.

End JsObject.

(** ** Data model shared by the two components *)

(** [type Conflicts = { db: string[]; inBatch: string[] } | null]; the
    [null] is the [None] of [option Conflicts]. *)
Record Conflicts := mkConflicts { db : list string; inBatch : list string }.

Record SavedWord := mkSaved { word : string; wordLower : string }.

(** [type State] of the reducer component; the [useState] component keeps
    the same eight cells in eight hooks. *)
Record State := mkState {
  text : string;
  conflicts : option Conflicts;
  replacements : gmap string string;
  message : option string;
  loading : bool;
  savedWords : list SavedWord;
  savedLoading : bool;
  savedError : option string;
}.

Definition initialState : State :=
  mkState "" None ∅ None false [] false None.

Definition setText (v : string) (s : State) : State :=
  mkState v (conflicts s) (replacements s) (message s) (loading s)
          (savedWords s) (savedLoading s) (savedError s).
Definition setConflicts (v : option Conflicts) (s : State) : State :=
  mkState (text s) v (replacements s) (message s) (loading s)
          (savedWords s) (savedLoading s) (savedError s).
Definition setReplacements (v : gmap string string) (s : State) : State :=
  mkState (text s) (conflicts s) v (message s) (loading s)
          (savedWords s) (savedLoading s) (savedError s).
Definition setMessage (v : option string) (s : State) : State :=
  mkState (text s) (conflicts s) (replacements s) v (loading s)
          (savedWords s) (savedLoading s) (savedError s).
Definition setLoading (v : bool) (s : State) : State :=
  mkState (text s) (conflicts s) (replacements s) (message s) v
          (savedWords s) (savedLoading s) (savedError s).
Definition setSavedWords (v : list SavedWord) (s : State) : State :=
  mkState (text s) (conflicts s) (replacements s) (message s) (loading s)
          v (savedLoading s) (savedError s).
Definition setSavedLoading (v : bool) (s : State) : State :=
  mkState (text s) (conflicts s) (replacements s) (message s) (loading s)
          (savedWords s) v (savedError s).
Definition setSavedError (v : option string) (s : State) : State :=
  mkState (text s) (conflicts s) (replacements s) (message s) (loading s)
          (savedWords s) (savedLoading s) v.

(** *** The Word Storage Service as seen by a handler *)

(** [err.response.data] of a rejected request. *)
Record ErrorData := mkErrorData {
  error : option string;
  errConflicts : option Conflicts;
}.

Inductive Failure :=
| ResponseError (status : nat) (data : ErrorData)
    (* axios error that carries an HTTP response *)
| RequestError
    (* axios error without a response: timeout, no connection *)
| Thrown.
    (* any other thrown value *)

Inductive Reply (A : Type) :=
| Ok (a : A)
| Failed (f : Failure).
Arguments Ok {A} a.
Arguments Failed {A} f.

(** Body of [POST /words/validate]. *)
Record ValidateData := mkValidateData {
  ok : bool;
  vConflicts : option Conflicts;
}.

(** Body of [GET /words]: a bare array, an envelope with an optional
    [mine] array, or anything else. *)
Record WordDoc := mkDoc { docWord : option string; docWordLower : option string }.

Inductive WordsData :=
| BareList (docs : list WordDoc)
| Envelope (mine : option (list WordDoc))
| OtherData.

(** What the outside answers during one handler run.  [onAdded] is the
    optional callback prop: absent, fulfilled or rejected. *)
Record Env := mkEnv {
  postValidate : list string -> Reply ValidateData;
  postWords : list string -> Reply unit;
  getWords : Reply WordsData;
  onAdded : option (Reply unit);
}.

Inductive Request :=
| PostValidate (words : list string)
| PostWords (words : list string)
| GetWords.

(** [err.response?.data?.error]. *)
Definition responseErrorText (f : Failure) : option string :=
  match f with
  | ResponseError _ d => error d
  | _ => None
  end.

(** [x || fallback] for an optional string [x]. *)
Definition orElse (x : option string) (fallback : string) : string :=
  match x with
  | Some e => if Js.truthy e then e else fallback
  | None => fallback
  end.

Definition countMessage (n : nat) : string :=
  "Please enter exactly 10 words. You entered " +:+ pretty n +:+ ".".

(** ** The [useState] component *)

Module UseState.

(** The character class of [/[\n,;]+/]. *)
Definition isDelimiter (c : ascii) : bool :=
  match N_of_ascii c with
  | 10%N | 44%N | 59%N => true
  | _ => false
  end.

Definition normalize (word : string) : string := Js.trim word.

(** [parsed]: the memo over [text]. *)
Definition parsed (text : string) : list string :=
  Js.slice0 100
    (Js.filterBoolean (map normalize (Js.split isDelimiter text))).

(** [inBatchDupKeys]: one pass over [parsed] counts every lowercase key in
    a [Map]; the keys counted more than once are kept, in the order of
    their first occurrence. *)
Definition countStep (counts : list (string * nat)) (w : string)
  : list (string * nat) :=
  let k := Js.toLowerCase w in
  Js.mapSet k (default 0 (Js.mapGet k counts) + 1) counts.

Definition countKeys (parsed : list string) : list (string * nat) :=
  fold_left countStep parsed [].

Definition inBatchDupKeys (parsed : list string) : list string :=
  map fst (List.filter (fun kc => Nat.ltb 1 (snd kc)) (countKeys parsed)).

Definition buildFinal (st : State) : list string :=
  map (fun w =>
         let key := Js.toLowerCase w in
         match replacements st !! key with
         | Some rep =>
             if negb (String.eqb (Js.trim rep) "") then Js.trim rep
             else Js.trim w
         | None => Js.trim w
         end)
      (parsed (text st)).

Definition isFinalValid (st : State) : bool :=
  let final := buildFinal st in
  if negb (Nat.eqb (length final) 10) then false
  else if existsb (fun f => negb (Js.truthy f)) final then false
  else
    let lowers := map Js.toLowerCase final in
    Nat.eqb (Js.setSize lowers) 10.

Definition initReplacementsFromList (keys : list string) : gmap string string :=
  fold_left (fun map k => JsObject.assign map (Js.toLowerCase k) "") keys ∅.

Definition isApiError (err : Failure) : bool :=
  match err with
  | ResponseError _ _ => true
  | _ => false
  end.

Definition errorMessage (err : Failure) (fallback : string) : string :=
  if isApiError err then orElse (responseErrorText err) fallback
  else fallback.

(** The saved-words mirror built from a [GET /words] body. *)
Definition docsOf (data : WordsData) : list WordDoc :=
  match data with
  | BareList docs => docs
  | Envelope (Some mine) => mine
  | _ => []
  end.

Definition savedOf (docs : list WordDoc) : list SavedWord :=
  map (fun d =>
         let w := orElse (docWord d) "" in
         mkSaved (Js.trim w)
                 (Js.toLowerCase (orElse (docWordLower d) (Js.toLowerCase w))))
      docs.

(** The message texts, as the bytes of the source file. *)
Definition successMessage : string := "Words added successfully!".
Definition submitConflictMessage : string :=
  "Conflicts detected on submit — please replace highlighted words.".
Definition validateConflictMessage : string :=
  "Some words are duplicates — please replace them.".
Definition localDuplicateMessage : string :=
  "Please replace the duplicate words shown below.".
Definition finalInvalidMessage : string :=
  "Final list must be exactly 10 unique non-empty words.".

(** The test of the [catch] block of [submitFinal]: an API error with
    status 409 whose body carries [conflicts]. *)
Definition conflictResponse (err : Failure) : option Conflicts :=
  match err with
  | ResponseError status data =>
      if Nat.eqb status 409 then errConflicts data else None
  | _ => None
  end.

(** The [catch] block of [submitFinal]. *)
Definition submitCatch (err : Failure) (s : State) : State :=
  match conflictResponse err with
  | Some serverConflicts =>
      let dbList := map Js.toLowerCase (db serverConflicts) in
      let batchList := map Js.toLowerCase (inBatch serverConflicts) in
      let s := setConflicts (Some (mkConflicts dbList batchList)) s in
      let map := fold_left (fun map k => JsObject.assign map k "")
                           (dbList ++ batchList) ∅ in
      let s := setReplacements map s in
      setMessage (Some submitConflictMessage) s
  | None => setMessage (Some (errorMessage err "Submit failed")) s
  end.

(** [submitFinal]: pessimistic, the form is reset after the server has
    acknowledged the words. *)
Definition submitFinal (s : State) (finalWords : list string) (env : Env)
  : State * list Request :=
  let s := setLoading true s in
  let s := setMessage None s in
  match postWords env finalWords with
  | Ok _ =>
      let s := setMessage (Some successMessage) s in
      let s := setText "" s in
      let s := setConflicts None s in
      let s := setReplacements ∅ s in
      match onAdded env with
      | Some (Failed err) =>
          (setLoading false (submitCatch err s), [PostWords finalWords])
      | _ =>
          let s := match getWords env with
                   | Ok data => setSavedWords (savedOf (docsOf data)) s
                   | Failed _ => s
                   end in
          (setLoading false s, [PostWords finalWords; GetWords])
      end
  | Failed err =>
      (setLoading false (submitCatch err s), [PostWords finalWords])
  end.

(** The replacement map of a validation answer: a key is entered when
    [map[k.toLowerCase()] === undefined], which is the case neither for a
    key entered before nor for an inherited name. *)
Definition replacementsOfConflicts (c : Conflicts) : gmap string string :=
  fold_left
    (fun map k =>
       match JsObject.get map (Js.toLowerCase k) with
       | JsObject.Undefined => JsObject.assign map (Js.toLowerCase k) ""
       | _ => map
       end)
    (db c ++ inBatch c) ∅.

(** [handleValidate]; [st] is the state of the render whose button was
    clicked: its [text] and [replacements] are what the closure reads. *)
Definition handleValidate (st : State) (env : Env) : State * list Request :=
  let words := parsed (text st) in
  let parsedCount := length words in
  let s := setMessage None st in
  let s := setConflicts None s in
  if negb (Nat.eqb parsedCount 10) then
    (setMessage (Some (countMessage parsedCount)) s, [])
  else if Nat.ltb 0 (length (inBatchDupKeys words)) then
    let inBatchLower := map Js.toLowerCase (inBatchDupKeys words) in
    let s := setConflicts (Some (mkConflicts [] inBatchLower)) s in
    let s := setReplacements (initReplacementsFromList inBatchLower) s in
    (setMessage (Some localDuplicateMessage) s, [])
  else
    let s := setLoading true s in
    match postValidate env words with
    | Ok res =>
        let c := default (mkConflicts [] []) (vConflicts res) in
        if Nat.ltb 0 (length (db c)) || Nat.ltb 0 (length (inBatch c)) then
          let s := setReplacements (replacementsOfConflicts c) s in
          let s := setConflicts
                     (Some (mkConflicts (map Js.toLowerCase (db c))
                                        (map Js.toLowerCase (inBatch c)))) s in
          let s := setMessage (Some validateConflictMessage) s in
          (setLoading false s, [PostValidate words])
        else
          let '(s, reqs) := submitFinal s (buildFinal st) env in
          (setLoading false s, PostValidate words :: reqs)
    | Failed err =>
        let s := setMessage (Some (errorMessage err "Validation failed")) s in
        (setLoading false s, [PostValidate words])
    end.

Definition handleSubmitReplacements (st : State) (env : Env)
  : State * list Request :=
  if negb (isFinalValid st) then
    (setMessage (Some finalInvalidMessage) st, [])
  else submitFinal st (buildFinal st) env.

(** The [onChange] of the text area, the Clear and Cancel buttons, and the
    [onChange] of the replacement input rendered for [key]. *)
Definition onChangeText (v : string) (s : State) : State := setText v s.

Definition onClear (s : State) : State :=
  setMessage None (setReplacements ∅ (setConflicts None (setText "" s))).

Definition onCancel (s : State) : State :=
  setMessage None (setReplacements ∅ (setConflicts None s)).

Definition onChangeReplacement (key v : string) (s : State) : State :=
  let lowerKey := Js.toLowerCase key in
  setReplacements (<[lowerKey := v]> (replacements s)) s.

(** [load], the effect run on mount: fetch the saved-words mirror. *)
Definition load (s : State) (env : Env) : State * list Request :=
  let s := setSavedLoading true s in
  let s := setSavedError None s in
  let s := match getWords env with
           | Ok data => setSavedWords (savedOf (docsOf data)) s
           | Failed _ =>
               setSavedWords [] (setSavedError (Some "Failed to load saved words") s)
           end in
  (setSavedLoading false s, [GetWords]).

(** *** The component as a state machine

    One event is one user action, with the handler run to completion.  An
    event is enabled when the rendered page offers it: the two submit
    buttons are disabled while loading, Validate also unless ten words are
    parsed, and the conflict editor (replacement inputs, Submit
    replacements, Cancel) is rendered only while [conflicts] is set. *)
Inductive Event :=
| ChangeText (v : string)
| Clear
| Cancel
| ChangeReplacement (key v : string)
| Validate (env : Env)
| SubmitReplacements (env : Env)
| Mount (env : Env).

Definition conflictKeys (c : Conflicts) : list string := db c ++ inBatch c.

(** The render returns.  The conflict editor evaluates
    [(replacements[lowerKey] ?? "").trim()] for every conflict key, which
    throws when the read finds an inherited value; a render that throws
    takes the page down. *)
Definition renders (st : State) : bool :=
  match conflicts st with
  | None => true
  | Some c =>
      forallb (fun key =>
                 match JsObject.get (replacements st) (Js.toLowerCase key) with
                 | JsObject.Inherited => false
                 | _ => true
                 end)
              (conflictKeys c)
  end.

Definition enabled (st : State) (e : Event) : Prop :=
  renders st = true /\
  match e with
  | ChangeText _ => True
  | Clear => loading st = false
  | Cancel => conflicts st <> None
  | ChangeReplacement key _ =>
      exists c, conflicts st = Some c /\ key ∈ conflictKeys c
  | Validate _ =>
      loading st = false /\ length (parsed (text st)) = 10
  | SubmitReplacements _ =>
      conflicts st <> None /\ isFinalValid st = true /\ loading st = false
  | Mount _ => True
  end.

Definition fire (st : State) (e : Event) : State :=
  match e with
  | ChangeText v => onChangeText v st
  | Clear => onClear st
  | Cancel => onCancel st
  | ChangeReplacement key v => onChangeReplacement key v st
  | Validate env => fst (handleValidate st env)
  | SubmitReplacements env => fst (handleSubmitReplacements st env)
  | Mount env => fst (load st env)
  end.

Inductive reachable : State -> Prop :=
| reachable_init : reachable initialState
| reachable_fire st e : reachable st -> enabled st e -> reachable (fire st e).

(** *** What the page shows of the parsed words *)

(** [occurrenceMap]: lowercase key to the words written with it, in the
    order of the text. *)
Definition occurrenceStep (m : list (string * list string)) (w : string)
  : list (string * list string) :=
  let k := Js.toLowerCase w in
  let list := default [] (Js.mapGetA k m) in
  Js.mapSetA k (list ++ [w]) m.

Definition occurrenceMap (parsed : list string)
  : list (string * list string) :=
  fold_left occurrenceStep parsed [].

End UseState.

(** ** The [useReducer] component *)

Module UseReducer.

Inductive Action :=
| SET_TEXT (text : string)
| SET_LOADING (value : bool)
| SET_MESSAGE (message : option string)
| SET_CONFLICTS (conflicts : option Conflicts)
| SET_REPLACEMENTS (replacements : gmap string string)
| RESET_FORM
| SET_SAVED (words : list SavedWord)
| ROLLBACK (snapshot : State).

Definition reducer (state : State) (action : Action) : State :=
  match action with
  | SET_TEXT t => setText t state
  | SET_LOADING v => setLoading v state
  | SET_MESSAGE m => setMessage m state
  | SET_CONFLICTS c => setConflicts c state
  | SET_REPLACEMENTS r => setReplacements r state
  | RESET_FORM => setReplacements ∅ (setConflicts None (setText "" state))
  | SET_SAVED ws => setSavedWords ws state
  | ROLLBACK snapshot => snapshot
  end.

(** The store after a handler has dispatched [actions] in order. *)
Definition dispatchAll (store : State) (actions : list Action) : State :=
  fold_left reducer actions store.

(** The character class of the split pattern: newline, comma, white space
    ([\s]), semicolon and the double quote. *)
Definition isDelimiter (c : ascii) : bool :=
  match N_of_ascii c with
  | 10%N | 44%N | 59%N | 34%N => true
  | _ => Js.isWhiteSpace c
  end.

Definition normalize (word : string) : string := Js.trim word.

Definition parsed (text : string) : list string :=
  Js.slice0 100
    (Js.filterBoolean (map normalize (Js.split isDelimiter text))).

(** The callback of [buildFinal].  The entry is read as
    [state.replacements[key]], without the [hasOwnProperty] test of the
    other component: under an inherited name [rep] is not a string and
    [rep.trim()] throws a [TypeError]. *)
Definition finalOf (replacements : gmap string string) (w : string)
  : option string :=
  match JsObject.get replacements (Js.toLowerCase w) with
  | JsObject.Undefined => Some (Js.trim w)
  | JsObject.Str rep =>
      Some (if Js.truthy rep && Js.truthy (Js.trim rep) then Js.trim rep
            else Js.trim w)
  | JsObject.Inherited => None
  end.

(** [buildFinal]: the list, or [None] when the callback throws. *)
Definition buildFinal (state : State) : option (list string) :=
  JsObject.mapThrowing (finalOf (replacements state)) (parsed (text state)).

(** [isFinalValid]: the exception of [buildFinal] passes through. *)
Definition isFinalValid (state : State) : option bool :=
  match buildFinal state with
  | Some final =>
      Some (if negb (Nat.eqb (length final) 10) then false
            else Nat.eqb (Js.setSize (map Js.toLowerCase final)) 10)
  | None => None
  end.

Definition isApiError (err : Failure) : bool :=
  match err with
  | ResponseError _ _ | RequestError => true
  | Thrown => false
  end.

Definition errorMessage (err : Failure) (fallback : string) : string :=
  if isApiError err then orElse (responseErrorText err) fallback
  else fallback.

Definition successMessage : string := "Words added successfully!".
Definition validateConflictMessage : string :=
  "Some words are duplicates — please replace them.".

(** [submitFinal]: optimistic, with rollback.  [state] is the state of the
    render that created the closure; it becomes the snapshot. *)
Definition submitFinal (state : State) (finalWords : list string) (env : Env)
  : list Action * list Request :=
  let rollbackRef := Some state in
  let optimistic :=
    [SET_LOADING true; SET_MESSAGE (Some successMessage); RESET_FORM] in
  let onCatch err :=
    match rollbackRef with
    | Some snapshot => [ROLLBACK snapshot]
    | None => []
    end ++ [SET_MESSAGE (Some (errorMessage err "Submit failed"))] in
  let finally_ := [SET_LOADING false] in
  match postWords env finalWords with
  | Ok _ =>
      match onAdded env with
      | Some (Failed err) =>
          (optimistic ++ onCatch err ++ finally_, [PostWords finalWords])
      | _ => (optimistic ++ finally_, [PostWords finalWords])
      end
  | Failed err =>
      (optimistic ++ onCatch err ++ finally_, [PostWords finalWords])
  end.

Definition handleValidate (state : State) (env : Env)
  : list Action * list Request :=
  let words := parsed (text state) in
  let parsedCount := length words in
  let start := [SET_MESSAGE None; SET_CONFLICTS None] in
  if negb (Nat.eqb parsedCount 10) then
    (start ++ [SET_MESSAGE (Some (countMessage parsedCount))], [])
  else
    let start := start ++ [SET_LOADING true] in
    let finally_ := [SET_LOADING false] in
    match postValidate env words with
    | Ok res =>
        match ok res, vConflicts res with
        | false, Some conflicts =>
            let map :=
              fold_left
                (fun map k => JsObject.assign map (Js.toLowerCase k) "")
                (db conflicts ++ inBatch conflicts) ∅ in
            (start ++ [SET_CONFLICTS (Some conflicts);
                       SET_REPLACEMENTS map;
                       SET_MESSAGE (Some validateConflictMessage)]
                   ++ finally_,
             [PostValidate words])
        | _, _ =>
            match buildFinal state with
            | Some final =>
                let '(acts, reqs) := submitFinal state final env in
                (start ++ acts ++ finally_, PostValidate words :: reqs)
            | None =>
                (* the [TypeError] of [buildFinal] lands in the [catch] *)
                (start ++ [SET_MESSAGE
                             (Some (errorMessage Thrown "Validation failed"))]
                       ++ finally_,
                 [PostValidate words])
            end
        end
    | Failed err =>
        (start ++ [SET_MESSAGE (Some (errorMessage err "Validation failed"))]
               ++ finally_,
         [PostValidate words])
    end.

(** The replacement input rendered for the conflict key [k]. *)
Definition onChangeReplacement (k v : string) (state : State) : Action :=
  SET_REPLACEMENTS (<[k := v]> (replacements state)).

(** The [onClick] of Submit replacements: [submitFinal(buildFinal())].  An
    exception of [buildFinal] leaves the handler before anything is
    dispatched. *)
Definition onSubmitReplacements (state : State) (env : Env)
  : list Action * list Request :=
  match buildFinal state with
  | Some final => submitFinal state final env
  | None => ([], [])
  end.

(** *** The component as a state machine

    One event is one user action; a handler dispatches all its actions
    before the next event.  The Validate button is disabled while loading
    or unless ten words are parsed, Clear while loading, and the conflict
    editor is rendered only while [conflicts] is set. *)
Inductive Event :=
| ChangeText (v : string)
| Clear
| ChangeReplacement (k v : string)
| Validate (env : Env)
| SubmitReplacements (env : Env).

Definition conflictKeys (c : Conflicts) : list string := db c ++ inBatch c.

(** The render returns.  The conflict editor calls [isFinalValid()] for
    the [disabled] attribute of its button; when that throws, the render
    throws and takes the page down. *)
Definition renders (st : State) : bool :=
  match conflicts st with
  | None => true
  | Some _ =>
      match isFinalValid st with
      | Some _ => true
      | None => false
      end
  end.

Definition enabled (st : State) (e : Event) : Prop :=
  renders st = true /\
  match e with
  | ChangeText _ => True
  | Clear => loading st = false
  | ChangeReplacement k _ =>
      exists c, conflicts st = Some c /\ k ∈ conflictKeys c
  | Validate _ =>
      loading st = false /\ length (parsed (text st)) = 10
  | SubmitReplacements _ =>
      conflicts st <> None /\ isFinalValid st = Some true /\
      loading st = false
  end.

Definition fire (st : State) (e : Event) : State :=
  match e with
  | ChangeText v => reducer st (SET_TEXT v)
  | Clear => reducer st RESET_FORM
  | ChangeReplacement k v => reducer st (onChangeReplacement k v st)
  | Validate env => dispatchAll st (fst (handleValidate st env))
  | SubmitReplacements env =>
      dispatchAll st (fst (onSubmitReplacements st env))
  end.

Inductive reachable : State -> Prop :=
| reachable_init : reachable initialState
| reachable_fire st e : reachable st -> enabled st e -> reachable (fire st e).

End UseReducer.

(** ** The operations in the words of the specification *)

Module Spec.

(** The maximal runs of non-delimiter characters of a string, in order:
    what is left between any runs of delimiters. *)
Fixpoint runsFrom (d : ascii -> bool) (tok : string) (s : string)
  : list string :=
  match s with
  | EmptyString =>
      match tok with EmptyString => [] | _ => [tok] end
  | String c s' =>
      if d c
      then match tok with
           | EmptyString => runsFrom d EmptyString s'
           | _ => tok :: runsFrom d EmptyString s'
           end
      else runsFrom d (tok +:+ String c EmptyString) s'
  end.

Definition runs (d : ascii -> bool) (s : string) : list string :=
  runsFrom d EmptyString s.

Definition blank (s : string) : Prop := Js.trim s = "".

(** A ParsedWord: a trimmed, non-empty token. *)
Definition cleanToken (t : string) : Prop := t <> "" /\ Js.trim t = t.

(** parse: split on runs of delimiters, trim each token, discard the empty
    ones, keep the first 100. *)
Definition parse (d : ascii -> bool) (raw : string) : list string :=
  take 100 (filter (fun t => t <> "") (map Js.trim (runs d raw))).

(** Number of occurrences of a WordKey among the keys of a list. *)
Definition multiplicity (k : string) (keys : list string) : nat :=
  length (filter (fun x => x = k) keys).

Definition wordKeys (words : list string) : list string :=
  map Js.toLowerCase words.

(** FinalWordList: for each parsed word its replacement entry, trimmed, if
    present and non-blank, else the trimmed original. *)
Definition finalWord (repl : gmap string string) (w : string) : string :=
  match repl !! Js.toLowerCase w with
  | Some r => if decide (blank r) then Js.trim w else Js.trim r
  | None => Js.trim w
  end.

Definition finalWordList (words : list string) (repl : gmap string string)
  : list string :=
  map (finalWord repl) words.

(** The lowercase form of a final word as a function of the key alone. *)
Definition finalKey (repl : gmap string string) (k : string) : string :=
  match repl !! k with
  | Some r => if decide (blank r) then Js.trim k else Js.toLowerCase (Js.trim r)
  | None => Js.trim k
  end.

(** The count a [Map] of counters holds for a key, 0 when absent. *)
Definition countOf (m : list (string * nat)) (k : string) : nat :=
  default 0 (Js.mapGet k m).

(** The invariant on the data model: every replacement key is a key of the
    current conflict set, so there are no replacements without one. *)
Definition replacementKeysInConflictSet (st : State) : Prop :=
  forall k, k ∈ dom (replacements st) ->
            exists c, conflicts st = Some c /\ k ∈ db c ++ inBatch c.

(** Exactly 10 entries, none blank, pairwise distinct lowercase forms. *)
Definition finalValid (final : list string) : Prop :=
  length final = 10 /\
  Forall (fun f => ~ blank f) final /\
  NoDup (map Js.toLowerCase final).

End Spec.

(** ** The CSV export of the dashboard *)

Module Dashboard.

(** [type Word]; [addedAt] is the ISO string the server sent. *)
Record Word := mkWord {
  _id : string;
  wordText : string;
  addedAt : string;
  userId : option string;
}.

Definition quote : ascii := ascii_of_N 34.

(** [s.replace(/QUOTE/g, QUOTE QUOTE)]: every double quote is doubled. *)
Fixpoint doubleQuotes (s : string) : string :=
  match s with
  | EmptyString => EmptyString
  | String c s' =>
      if Ascii.eqb c quote then String quote (String quote (doubleQuotes s'))
      else String c (doubleQuotes s')
  end.

(** One cell of the export: quoted, with its quotes doubled, when it
    contains a comma; as it is otherwise. *)
Definition csvCell (cell : string) : string :=
  if Js.includesChar "," cell
  then String quote (doubleQuotes cell) +:+ String quote EmptyString
  else cell.

Definition csvLine (r : list string) : string := Js.join "," (map csvCell r).

(** The text handed to the [Blob] by [exportCsv]; [toLocaleString] stands
    for [new Date(addedAt).toLocaleString()], which depends on the locale
    and time zone of the browser. *)
Definition exportCsv (toLocaleString : string -> string)
           (myWords : list Word) : string :=
  let rows :=
    ["word"; "addedAt"]
      :: map (fun w => [wordText w; toLocaleString (addedAt w)]) myWords in
  Js.join (String "010"%char EmptyString) (map csvLine rows).

End Dashboard.

(** ** Further notions used to state properties *)

Module View.

(** The distinct elements of a list, each at its first occurrence. *)
Fixpoint distinctInOrder (l : list string) : list string :=
  match l with
  | [] => []
  | x :: l' => x :: filter (fun y => y <> x) (distinctInOrder l')
  end.

(** The words of a list written with the key [k]. *)
Definition occurrences (k : string) (words : list string) : list string :=
  filter (fun w => Js.toLowerCase w = k) words.

(** No replacement entry applies to a word of the list: the entry of its
    key is missing or blank. *)
Definition noReplacementApplies (repl : gmap string string)
           (words : list string) : Prop :=
  forall w r, w ∈ words -> repl !! Js.toLowerCase w = Some r -> Spec.blank r.

(** Some word of the list is read under an inherited name: its key names
    a property of [Object.prototype] and the map has no own entry for it. *)
Definition readsInherited (repl : gmap string string) (words : list string)
  : bool :=
  existsb (fun w =>
             match JsObject.get repl (Js.toLowerCase w) with
             | JsObject.Inherited => true
             | _ => false
             end)
          words.

(** A state in which only the saved-words mirror may differ. *)
Definition sameForm (s s' : State) : Prop :=
  text s' = text s /\ conflicts s' = conflicts s /\
  replacements s' = replacements s /\ message s' = message s /\
  loading s' = loading s.

(** The three cells of the saved-words mirror. *)
Definition mirror (s : State) : list SavedWord * bool * option string :=
  (savedWords s, savedLoading s, savedError s).

(** The words of the [useState] component before the cut at 100. *)
Definition allWords (raw : string) : list string :=
  Js.filterBoolean
    (map UseState.normalize (Js.split UseState.isDelimiter raw)).

(** A string of white space only. *)
Definition allWhiteSpace (s : string) : Prop :=
  Js.anyChar (fun c => negb (Js.isWhiteSpace c)) s = false.

(** The word a document carries: [d.word || ""]. *)
Definition sentWord (d : WordDoc) : string := orElse (docWord d) "".

(** The document has no usable [wordLower]: missing or empty. *)
Definition noWordLower (d : WordDoc) : Prop :=
  docWordLower d = None \/ docWordLower d = Some "".

(** A mirror entry as the page expects it: the word trimmed, the key in
    lowercase. *)
Definition normalSaved (sw : SavedWord) : Prop :=
  Js.trim (word sw) = word sw /\
  Js.toLowerCase (wordLower sw) = wordLower sw.

(** The [onAdded] hook, when there is one, did not reject. *)
Definition hookFulfilled (env : Env) : Prop :=
  forall err, onAdded env <> Some (Failed err).

End View.

(** ** Sample inputs *)

Module Sample.

Definition tenWords : string :=
  "lion, tiger, bear, wolf, fox, deer, hare, mole, seal, orca".

Definition catWords : string :=
  "cat, dog, cat, bird, fox, deer, hare, mole, seal, orca".

Definition appleWords : string :=
  "apple, tiger, bear, wolf, fox, deer, hare, mole, seal, orca".

(** The validation answer [{ ok: false, conflicts: { db: ["apple"],
    inBatch: [] } }]. *)
Definition appleTaken : Env :=
  mkEnv (fun _ => Ok (mkValidateData false (Some (mkConflicts ["apple"] []))))
        (fun _ => Ok tt) (Ok (BareList [])) None.

(** The submit answer: HTTP 409 with [conflicts: { db: [], inBatch:
    ["lion"] }]. *)
Definition lionConflict : Env :=
  mkEnv (fun _ => Ok (mkValidateData true None))
        (fun _ => Failed (ResponseError 409
                            (mkErrorData (Some "Duplicate words")
                                         (Some (mkConflicts [] ["lion"])))))
        (Ok (BareList [])) None.

(** The submit answer: HTTP 500 without a body. *)
Definition serverDown : Env :=
  mkEnv (fun _ => Ok (mkValidateData true None))
        (fun _ => Failed (ResponseError 500 (mkErrorData None None)))
        (Ok (BareList [])) None.

(** Ten distinct words, one of them the name of an inherited property. *)
Definition constructorWords : string :=
  "constructor, tiger, bear, wolf, fox, deer, hare, mole, seal, orca".

(** Ten words with [cat] twice and the name of an inherited property. *)
Definition catConstructorWords : string :=
  "cat, dog, cat, constructor, fox, deer, hare, mole, seal, orca".

(** Ten words with [__proto__] twice. *)
Definition protoWords : string :=
  "__proto__, dog, __proto__, bird, fox, deer, hare, mole, seal, orca".

(** The validation answer [{ ok: false, conflicts: { db: ["Apple"],
    inBatch: [] } }]: the key as the word was stored. *)
Definition appleCapital : Env :=
  mkEnv (fun _ => Ok (mkValidateData false (Some (mkConflicts ["Apple"] []))))
        (fun _ => Ok tt) (Ok (BareList [])) None.

(** The validation answer [{ ok: true, conflicts: { db: ["apple"],
    inBatch: [] } }]. *)
Definition okWithConflicts : Env :=
  mkEnv (fun _ => Ok (mkValidateData true (Some (mkConflicts ["apple"] []))))
        (fun _ => Ok tt) (Ok (BareList [])) None.

(** The validation answers that report [tiger], [constructor] and the
    repeated [cat]. *)
Definition tigerTaken : Env :=
  mkEnv (fun _ => Ok (mkValidateData false (Some (mkConflicts ["tiger"] []))))
        (fun _ => Ok tt) (Ok (BareList [])) None.

Definition constructorTaken : Env :=
  mkEnv (fun _ => Ok (mkValidateData false
                        (Some (mkConflicts ["constructor"] []))))
        (fun _ => Ok tt) (Ok (BareList [])) None.

Definition catRepeated : Env :=
  mkEnv (fun _ => Ok (mkValidateData false (Some (mkConflicts [] ["cat"]))))
        (fun _ => Ok tt) (Ok (BareList [])) None.

(** No request is answered: every call fails without a response. *)
Definition offline : Env :=
  mkEnv (fun _ => Failed RequestError) (fun _ => Failed RequestError)
        (Failed RequestError) None.

(** The state in which the conflict editor of the [useState] component
    shows the server's [apple] conflict: ten words typed, then validated. *)
Definition appleReview : State :=
  UseState.fire
    (UseState.fire initialState (UseState.ChangeText appleWords))
    (UseState.Validate appleTaken).

(** Every request is answered well; the server knows two words. *)
Definition allFine : Env :=
  mkEnv (fun _ => Ok (mkValidateData true None)) (fun _ => Ok tt)
        (Ok (Envelope (Some [mkDoc (Some " Lion ") None;
                             mkDoc (Some "Tiger") (Some "TIGER")])))
        None.

(** The post is stored, then the [onAdded] hook rejects. *)
Definition hookRejects : Env :=
  mkEnv (fun _ => Ok (mkValidateData true None)) (fun _ => Ok tt)
        (Ok (BareList [])) (Some (Failed Thrown)).

(** A failed second validation from the conflict-review state. *)
Definition appleRetryOffline : State :=
  UseState.fire appleReview (UseState.Validate offline).

(** The reducer component after [constructorWords] was typed, and after
    its validation was answered with the [tiger] conflict. *)
Definition constructorTyped : State :=
  UseReducer.fire initialState (UseReducer.ChangeText constructorWords).

Definition constructorReview : State :=
  UseReducer.fire constructorTyped (UseReducer.Validate tigerTaken).

(** The reducer component after [catConstructorWords] was typed and its
    validation was answered with the repeated [cat]. *)
Definition catConstructorReview : State :=
  UseReducer.fire
    (UseReducer.fire initialState (UseReducer.ChangeText catConstructorWords))
    (UseReducer.Validate catRepeated).

(** The reducer component after the server reported [Apple]. *)
Definition appleCapitalReview : State :=
  UseReducer.fire
    (UseReducer.fire initialState (UseReducer.ChangeText appleWords))
    (UseReducer.Validate appleCapital).

End Sample.

(** * Properties *)

(** ** Strings *)

Section StringFacts.

Import Js.

Lemma lowerChar_idem c : lowerChar (lowerChar c) = lowerChar c.
Proof. destruct c as [[] [] [] [] [] [] [] []]; reflexivity. Qed.

Lemma isWhiteSpace_lowerChar c : isWhiteSpace (lowerChar c) = isWhiteSpace c.
Proof. destruct c as [[] [] [] [] [] [] [] []]; reflexivity. Qed.

Lemma toLowerCase_idem s : toLowerCase (toLowerCase s) = toLowerCase s.
Proof.
  induction s as [|c s IH]; simpl; [reflexivity|].
  now rewrite lowerChar_idem, IH.
Qed.

Lemma toLowerCase_trimStart s :
  toLowerCase (trimStart s) = trimStart (toLowerCase s).
Proof.
  induction s as [|c s IH]; simpl; [reflexivity|].
  rewrite isWhiteSpace_lowerChar.
  destruct (isWhiteSpace c); [exact IH | reflexivity].
Qed.

Lemma toLowerCase_trimEnd s :
  toLowerCase (trimEnd s) = trimEnd (toLowerCase s).
Proof.
  induction s as [|c s IH]; simpl; [reflexivity|].
  rewrite <- IH, isWhiteSpace_lowerChar.
  destruct (trimEnd s); simpl; [|reflexivity].
  destruct (isWhiteSpace c); reflexivity.
Qed.

Lemma toLowerCase_trim s : toLowerCase (trim s) = trim (toLowerCase s).
Proof.
  unfold trim. now rewrite toLowerCase_trimEnd, toLowerCase_trimStart.
Qed.

Lemma trimStart_clean s : startsClean (trimStart s).
Proof.
  induction s as [|c s IH]; simpl; [exact I|].
  destruct (isWhiteSpace c) eqn:E; [exact IH | exact E].
Qed.

Lemma trimStart_fixed s : startsClean s -> trimStart s = s.
Proof. destruct s as [|c s]; simpl; [reflexivity|]. now intros ->. Qed.

Lemma trimEnd_clean s : startsClean s -> startsClean (trimEnd s).
Proof.
  destruct s as [|c s]; simpl; [trivial|]. intros Hc.
  destruct (trimEnd s); simpl; [rewrite Hc|]; exact Hc.
Qed.

Lemma trimEnd_idem s : trimEnd (trimEnd s) = trimEnd s.
Proof.
  induction s as [|c s IH]; simpl; [reflexivity|].
  destruct (trimEnd s) as [|c' r] eqn:E.
  - destruct (isWhiteSpace c) eqn:Ec; simpl; [reflexivity|].
    now rewrite Ec.
  - change (trimEnd (String c (String c' r))) with
      (match trimEnd (String c' r) with
       | EmptyString => if isWhiteSpace c then EmptyString
                        else String c EmptyString
       | r0 => String c r0
       end).
    now rewrite IH.
Qed.

Lemma trim_idem s : trim (trim s) = trim s.
Proof.
  unfold trim.
  rewrite (trimStart_fixed (trimEnd (trimStart s))).
  - apply trimEnd_idem.
  - apply trimEnd_clean, trimStart_clean.
Qed.

Lemma truthy_true s : truthy s = true <-> s <> "".
Proof. destruct s; simpl; split; congruence. Qed.

Lemma truthy_false s : truthy s = false <-> s = "".
Proof. destruct s; simpl; split; congruence. Qed.

Lemma eqb_empty s : String.eqb s "" = negb (truthy s).
Proof. destruct s; reflexivity. Qed.

Lemma toLowerCase_empty s : toLowerCase s = "" <-> s = "".
Proof. destruct s; simpl; split; congruence. Qed.

End StringFacts.

(** ** Parsing *)

Section ParseFacts.

Import Js.

Lemma filter_truthy_splitFrom d inSep tok s :
  (inSep = true -> tok = "") ->
  List.filter truthy (splitFrom d inSep tok s) = Spec.runsFrom d tok s.
Proof.
  revert inSep tok.
  induction s as [|c s IH]; intros inSep tok Hsep; simpl.
  - destruct tok; reflexivity.
  - destruct (d c).
    + destruct inSep.
      * rewrite Hsep by reflexivity. now apply IH.
      * simpl. rewrite IH by reflexivity. destruct tok; reflexivity.
    + apply IH. intros [=].
Qed.

Lemma filter_truthy_prop (l : list string) :
  List.filter truthy l = filter (fun t => t <> "") l.
Proof.
  induction l as [|x l IH]; [reflexivity|]. simpl.
  destruct (truthy x) eqn:E.
  - rewrite filter_cons_True by now apply truthy_true. now rewrite IH.
  - rewrite filter_cons_False; [exact IH|].
    apply truthy_false in E. intros H. now apply H.
Qed.

Lemma trim_empty : trim "" = "".
Proof. reflexivity. Qed.

(** Empty fields of the split stay empty under [trim], so they may be
    dropped before or after trimming. *)
Lemma filter_truthy_map_trim (l : list string) :
  List.filter truthy (map trim l) =
  List.filter truthy (map trim (List.filter truthy l)).
Proof.
  induction l as [|x l IH]; [reflexivity|]. simpl.
  destruct x as [|c x]; simpl; [exact IH|].
  now rewrite IH.
Qed.

Lemma tokens_of_split d raw :
  filterBoolean (map trim (split d raw)) =
  filter (fun t => t <> "") (map trim (Spec.runs d raw)).
Proof.
  unfold filterBoolean, split, Spec.runs.
  rewrite filter_truthy_map_trim, filter_truthy_splitFrom by (intros [=]).
  apply filter_truthy_prop.
Qed.

Lemma UseState_parsed_spec raw :
  UseState.parsed raw = Spec.parse UseState.isDelimiter raw.
Proof.
  unfold UseState.parsed, Spec.parse, slice0, UseState.normalize.
  now rewrite tokens_of_split.
Qed.

Lemma UseReducer_parsed_spec raw :
  UseReducer.parsed raw = Spec.parse UseReducer.isDelimiter raw.
Proof.
  unfold UseReducer.parsed, Spec.parse, slice0, UseReducer.normalize.
  now rewrite tokens_of_split.
Qed.

Lemma Spec_parse_clean d raw : Forall Spec.cleanToken (Spec.parse d raw).
Proof.
  unfold Spec.parse. apply Forall_take.
  apply Forall_forall. intros t Ht.
  apply list_elem_of_filter in Ht as [Hne Hin].
  apply list_elem_of_fmap in Hin as [x [-> _]].
  split; [exact Hne | apply trim_idem].
Qed.

Lemma anyChar_snoc p tok c :
  anyChar p (tok +:+ String c EmptyString) = anyChar p tok || p c.
Proof.
  induction tok as [|c' tok IH]; simpl.
  - now rewrite orb_false_r.
  - now rewrite IH, orb_assoc.
Qed.

Lemma anyChar_trimStart p s : anyChar p s = false -> anyChar p (trimStart s) = false.
Proof.
  induction s as [|c s IH]; simpl; [trivial|]. intros H.
  apply orb_false_iff in H as [Hc Hs].
  destruct (isWhiteSpace c); [now apply IH | simpl; now rewrite Hc, Hs].
Qed.

Lemma anyChar_trimEnd p s : anyChar p s = false -> anyChar p (trimEnd s) = false.
Proof.
  induction s as [|c s IH]; simpl; [trivial|]. intros H.
  apply orb_false_iff in H as [Hc Hs]. specialize (IH Hs).
  destruct (trimEnd s); simpl.
  - destruct (isWhiteSpace c); simpl; [reflexivity | now rewrite Hc].
  - rewrite Hc. exact IH.
Qed.

Lemma anyChar_trim p s : anyChar p s = false -> anyChar p (trim s) = false.
Proof. intros H. now apply anyChar_trimEnd, anyChar_trimStart. Qed.

(** The runs are free of delimiters. *)
Lemma runsFrom_no_delimiter d s : forall tok,
  anyChar d tok = false ->
  Forall (fun t => anyChar d t = false) (Spec.runsFrom d tok s).
Proof.
  induction s as [|c s IH]; intros tok Htok; simpl.
  - destruct tok; [constructor | now repeat constructor].
  - destruct (d c) eqn:E.
    + destruct tok; [now apply IH | constructor; [exact Htok | now apply IH]].
    + apply IH. now rewrite anyChar_snoc, Htok, E.
Qed.

Lemma Spec_parse_no_delimiter d raw :
  Forall (fun t => anyChar d t = false) (Spec.parse d raw).
Proof.
  unfold Spec.parse, Spec.runs. apply Forall_take.
  apply Forall_forall. intros t Ht.
  apply list_elem_of_filter in Ht as [_ Ht].
  apply list_elem_of_fmap in Ht as [x [-> Hx]].
  apply anyChar_trim.
  pose proof (runsFrom_no_delimiter d raw EmptyString eq_refl) as Hall.
  rewrite Forall_forall in Hall. now apply Hall.
Qed.

Lemma Spec_parse_length d raw : length (Spec.parse d raw) <= 100.
Proof. unfold Spec.parse. rewrite length_take. lia. Qed.

End ParseFacts.

(** ** The final word list *)

Section FinalFacts.

Import Js.

Lemma UseState_buildFinal_spec st :
  UseState.buildFinal st =
  Spec.finalWordList (UseState.parsed (text st)) (replacements st).
Proof.
  unfold UseState.buildFinal, Spec.finalWordList.
  apply map_ext. intros w. unfold Spec.finalWord, Spec.blank.
  destruct (replacements st !! toLowerCase w) as [rep|]; [|reflexivity].
  rewrite eqb_empty, negb_involutive.
  destruct (decide (trim rep = "")) as [E|E].
  - now rewrite E.
  - apply truthy_true in E. now rewrite E.
Qed.

(** The callback of the reducer's [buildFinal]: it throws on the words
    read under an inherited name and gives the final word otherwise. *)
Lemma UseReducer_finalOf_spec repl w :
  UseReducer.finalOf repl w =
  match JsObject.get repl (toLowerCase w) with
  | JsObject.Inherited => None
  | _ => Some (Spec.finalWord repl w)
  end.
Proof.
  unfold UseReducer.finalOf, JsObject.get, Spec.finalWord, Spec.blank.
  destruct (repl !! toLowerCase w) as [rep|].
  - f_equal. destruct (decide (trim rep = "")) as [E|E].
    + rewrite E. simpl. now rewrite andb_false_r.
    + assert (truthy (trim rep) = true) as -> by now apply truthy_true.
      destruct rep; [now contradiction E | reflexivity].
  - now destruct (bool_decide _).
Qed.

Lemma mapThrowing_finalOf repl words :
  JsObject.mapThrowing (UseReducer.finalOf repl) words =
  if View.readsInherited repl words then None
  else Some (Spec.finalWordList words repl).
Proof.
  induction words as [|w words IH]; [reflexivity|].
  cbn [JsObject.mapThrowing View.readsInherited existsb].
  rewrite UseReducer_finalOf_spec, IH.
  fold (View.readsInherited repl words).
  destruct (JsObject.get repl (toLowerCase w)); cbn [orb];
    now destruct (View.readsInherited repl words).
Qed.

Lemma UseReducer_buildFinal_spec st :
  UseReducer.buildFinal st =
  if View.readsInherited (replacements st) (UseReducer.parsed (text st))
  then None
  else Some (Spec.finalWordList (UseReducer.parsed (text st))
                                (replacements st)).
Proof. apply mapThrowing_finalOf. Qed.

(** No word is read under an inherited name when no key of the list names
    a property of [Object.prototype]. *)
Lemma readsInherited_false repl words :
  Forall (fun w => toLowerCase w ∉ JsObject.prototypeNames) words ->
  View.readsInherited repl words = false.
Proof.
  induction 1 as [|w words Hw _ IH]; [reflexivity|].
  cbn [View.readsInherited existsb]. fold (View.readsInherited repl words).
  rewrite IH, orb_false_r. unfold JsObject.get.
  destruct (repl !! toLowerCase w); [reflexivity|].
  now rewrite bool_decide_eq_false_2.
Qed.

Lemma finalWord_clean repl w :
  Spec.cleanToken w -> Spec.cleanToken (Spec.finalWord repl w).
Proof.
  intros [Hne Htrim]. unfold Spec.finalWord, Spec.blank.
  destruct (repl !! toLowerCase w) as [r|].
  - destruct (decide (trim r = "")) as [E|E].
    + rewrite Htrim. now split.
    + split; [exact E | apply trim_idem].
  - rewrite Htrim. now split.
Qed.

Lemma finalWordList_clean repl words :
  Forall Spec.cleanToken words ->
  Forall Spec.cleanToken (Spec.finalWordList words repl).
Proof.
  intros H. unfold Spec.finalWordList. apply Forall_fmap.
  eapply Forall_impl; [exact H|]. intros w Hw. now apply finalWord_clean.
Qed.

Lemma clean_not_blank f : Spec.cleanToken f -> ~ Spec.blank f.
Proof. intros [Hne Htrim] Hb. unfold Spec.blank in Hb. congruence. Qed.

Lemma clean_truthy f : Spec.cleanToken f -> truthy f = true.
Proof. intros [Hne _]. now apply truthy_true. Qed.

(** [new Set(xs).size] counts every element once. *)
Lemma setSize_le (xs : list string) : setSize xs <= length xs.
Proof.
  unfold setSize. induction xs as [|x xs IH].
  - change (size (∅ : gset string) <= 0). rewrite size_empty. lia.
  - change (size ({[x]} ∪ (list_to_set xs : gset string)) <= S (length xs)).
    rewrite size_union_alt, size_singleton.
    assert (size ((list_to_set xs : gset string) ∖ {[x]})
            <= size (list_to_set xs : gset string)) as Hle
      by (apply subseteq_size; intros y Hy;
          now apply elem_of_difference in Hy as [Hy _]).
    lia.
Qed.

Lemma setSize_NoDup (xs : list string) :
  setSize xs = length xs <-> NoDup xs.
Proof.
  split.
  - induction xs as [|x xs IH]; intros Hsz; [constructor|].
    assert (x ∉ xs) as Hnin.
    { intros Hin. unfold setSize in Hsz. simpl in Hsz.
      assert ({[x]} ∪ list_to_set xs = (list_to_set xs : gset string)) as E.
      { apply set_eq. intros y.
        rewrite elem_of_union, elem_of_singleton, elem_of_list_to_set.
        split; [intros [->|?]; assumption | now right]. }
      rewrite E in Hsz. pose proof (setSize_le xs) as Hle.
      unfold setSize in Hle. lia. }
    constructor; [exact Hnin|]. apply IH.
    unfold setSize in *. simpl in Hsz.
    rewrite size_union in Hsz
      by (apply disjoint_singleton_l; now rewrite elem_of_list_to_set).
    rewrite size_singleton in Hsz. lia.
  - intros Hnd. unfold setSize. now apply size_list_to_set.
Qed.

Lemma existsb_not_truthy_clean (l : list string) :
  Forall Spec.cleanToken l -> existsb (fun f => negb (truthy f)) l = false.
Proof.
  induction 1 as [|f l Hf _ IH]; simpl; [reflexivity|].
  now rewrite (clean_truthy f Hf), IH.
Qed.

Lemma finalValid_of_clean (final : list string) :
  Forall Spec.cleanToken final ->
  (Spec.finalValid final <->
   length final = 10 /\ setSize (map toLowerCase final) = 10).
Proof.
  intros Hclean. unfold Spec.finalValid. split.
  - intros (Hlen & _ & Hnd). split; [exact Hlen|].
    apply setSize_NoDup in Hnd. now rewrite Hnd, length_map.
  - intros (Hlen & Hsz). split; [exact Hlen|]. split.
    + eapply Forall_impl; [exact Hclean|]. apply clean_not_blank.
    + apply setSize_NoDup. now rewrite length_map, Hlen.
Qed.

End FinalFacts.

(** ** Word keys and their multiplicity *)

Section KeyFacts.

Import Js.

Lemma multiplicity_notin k (keys : list string) :
  k ∉ keys -> Spec.multiplicity k keys = 0.
Proof.
  unfold Spec.multiplicity. induction keys as [|x keys IH]; intros Hnin.
  - reflexivity.
  - apply not_elem_of_cons in Hnin as [Hne Hnin].
    rewrite filter_cons_False by congruence. now apply IH.
Qed.

Lemma multiplicity_cons k x (keys : list string) :
  Spec.multiplicity k (x :: keys) =
  (if decide (x = k) then 1 else 0) + Spec.multiplicity k keys.
Proof.
  unfold Spec.multiplicity. destruct (decide (x = k)) as [E|E].
  - now rewrite filter_cons_True.
  - now rewrite filter_cons_False.
Qed.

Lemma multiplicity_pos k (keys : list string) :
  0 < Spec.multiplicity k keys <-> k ∈ keys.
Proof.
  induction keys as [|x keys IH].
  - unfold Spec.multiplicity. simpl. split; [lia | intros H; inversion H].
  - rewrite multiplicity_cons, elem_of_cons.
    destruct (decide (x = k)) as [E|E].
    + split; [now left | lia].
    + simpl. rewrite IH. split; [now right | intros [?|?]; congruence].
Qed.

Lemma NoDup_multiplicity (keys : list string) :
  NoDup keys <-> forall k, Spec.multiplicity k keys <= 1.
Proof.
  induction keys as [|x keys IH].
  - split; [intros _ k; unfold Spec.multiplicity; simpl; lia | constructor].
  - split.
    + intros Hnd k. apply NoDup_cons in Hnd as [Hnin Hnd].
      rewrite multiplicity_cons. destruct (decide (x = k)) as [<-|E].
      * rewrite multiplicity_notin by exact Hnin. lia.
      * simpl. now apply IH.
    + intros Hm. apply NoDup_cons. split.
      * intros Hin. apply multiplicity_pos in Hin.
        specialize (Hm x). rewrite multiplicity_cons in Hm.
        destruct (decide (x = x)); [lia | congruence].
      * apply IH. intros k. specialize (Hm k).
        rewrite multiplicity_cons in Hm. lia.
Qed.

Lemma toLowerCase_finalWord repl w :
  toLowerCase (Spec.finalWord repl w) = Spec.finalKey repl (toLowerCase w).
Proof.
  unfold Spec.finalWord, Spec.finalKey.
  destruct (repl !! toLowerCase w) as [r|].
  - destruct (decide (Spec.blank r)); [apply toLowerCase_trim | reflexivity].
  - apply toLowerCase_trim.
Qed.

Lemma finalWordList_keys repl words :
  map toLowerCase (Spec.finalWordList words repl) =
  map (Spec.finalKey repl) (Spec.wordKeys words).
Proof.
  unfold Spec.finalWordList, Spec.wordKeys. rewrite !map_map.
  apply map_ext, toLowerCase_finalWord.
Qed.

Lemma finalValid_keys_NoDup repl words :
  Spec.finalValid (Spec.finalWordList words repl) ->
  NoDup (Spec.wordKeys words).
Proof.
  intros (_ & _ & Hnd). rewrite finalWordList_keys in Hnd.
  exact (NoDup_fmap_1 (Spec.finalKey repl) _ Hnd).
Qed.

End KeyFacts.

(** ** Counting keys: the in-batch duplicates *)

Section CountFacts.

Import Js.

Lemma mapGet_mapSet_eq k v m : mapGet k (mapSet k v m) = Some v.
Proof.
  induction m as [|[k' v'] m IH]; cbn [mapGet mapSet].
  - now rewrite decide_True.
  - destruct (decide (k' = k)) as [E|E]; cbn [mapGet].
    + now rewrite decide_True.
    + now rewrite decide_False.
Qed.

Lemma mapGet_mapSet_ne k k' v m :
  k' <> k -> mapGet k (mapSet k' v m) = mapGet k m.
Proof.
  intros Hne. induction m as [|[k0 v0] m IH]; cbn [mapGet mapSet].
  - now rewrite decide_False.
  - destruct (decide (k0 = k')) as [E|E]; cbn [mapGet].
    + subst k0. now rewrite !decide_False.
    + destruct (decide (k0 = k)); [reflexivity | exact IH].
Qed.

Lemma mapSet_keys k v m :
  map fst (mapSet k v m) =
  if decide (k ∈ map fst m) then map fst m else map fst m ++ [k].
Proof.
  induction m as [|[k' v'] m IH]; cbn [mapSet map fst].
  - rewrite decide_False; [reflexivity | intros H; inversion H].
  - destruct (decide (k' = k)) as [E|E]; cbn [map fst].
    + subst k'. rewrite decide_True; [reflexivity | left].
    + rewrite IH. destruct (decide (k ∈ map fst m)) as [Hin|Hnin].
      * rewrite decide_True; [reflexivity | now right].
      * rewrite decide_False; [reflexivity|].
        intros Hin. apply elem_of_cons in Hin as [?|?]; congruence.
Qed.

Lemma mapSet_NoDup k v m : NoDup (map fst m) -> NoDup (map fst (mapSet k v m)).
Proof.
  intros Hnd. rewrite mapSet_keys.
  destruct (decide (k ∈ map fst m)) as [Hin|Hnin]; [exact Hnd|].
  apply NoDup_app. split; [exact Hnd|]. split.
  - intros x Hx Hx'. apply list_elem_of_singleton in Hx'. now subst x.
  - apply NoDup_singleton.
Qed.

Lemma mapGet_elem k v m :
  NoDup (map fst m) -> ((k, v) ∈ m <-> mapGet k m = Some v).
Proof.
  induction m as [|[k' v'] m IH]; cbn [mapGet map fst]; intros Hnd.
  - split; [intros H; inversion H | discriminate].
  - apply NoDup_cons in Hnd as [Hnin Hnd].
    rewrite elem_of_cons. destruct (decide (k' = k)) as [E|E].
    + subst k'. split.
      * intros [[= ->]|Hin]; [reflexivity|].
        exfalso. apply Hnin. apply list_elem_of_fmap. now exists (k, v).
      * intros [= ->]. now left.
    + rewrite <- (IH Hnd). split; [intros [[= ? ?]|?]; congruence | now right].
Qed.

Lemma countOf_fold words : forall m k,
  Spec.countOf (fold_left UseState.countStep words m) k =
  Spec.countOf m k + Spec.multiplicity k (Spec.wordKeys words).
Proof.
  induction words as [|w words IH]; intros m k; simpl.
  - unfold Spec.multiplicity. simpl. lia.
  - rewrite IH. unfold Spec.wordKeys in *. rewrite multiplicity_cons.
    unfold UseState.countStep, Spec.countOf.
    destruct (decide (toLowerCase w = k)) as [E|E].
    + subst k. rewrite mapGet_mapSet_eq. simpl. lia.
    + rewrite mapGet_mapSet_ne by exact E. lia.
Qed.

Lemma fold_countStep_NoDup words : forall m,
  NoDup (map fst m) -> NoDup (map fst (fold_left UseState.countStep words m)).
Proof.
  induction words as [|w words IH]; intros m Hnd; simpl; [exact Hnd|].
  apply IH. unfold UseState.countStep. now apply mapSet_NoDup.
Qed.

Lemma countKeys_countOf words k :
  Spec.countOf (UseState.countKeys words) k =
  Spec.multiplicity k (Spec.wordKeys words).
Proof.
  unfold UseState.countKeys. now rewrite countOf_fold.
Qed.

Lemma countKeys_NoDup words : NoDup (map fst (UseState.countKeys words)).
Proof.
  unfold UseState.countKeys. apply fold_countStep_NoDup. constructor.
Qed.

(** [inBatchDupKeys] is exactly the set of keys of multiplicity above 1. *)
Lemma elem_of_inBatchDupKeys words k :
  k ∈ UseState.inBatchDupKeys words <->
  1 < Spec.multiplicity k (Spec.wordKeys words).
Proof.
  unfold UseState.inBatchDupKeys.
  rewrite <- countKeys_countOf. unfold Spec.countOf.
  pose proof (countKeys_NoDup words) as Hnd.
  split.
  - intros Hin. apply list_elem_of_fmap in Hin as [[k' v] [-> Hin]].
    apply list_elem_of_In, filter_In in Hin as [Hin Hv].
    apply list_elem_of_In in Hin. apply (mapGet_elem k' v _ Hnd) in Hin.
    cbn [fst snd] in *. rewrite Hin. now apply Nat.ltb_lt in Hv.
  - intros Hlt.
    destruct (mapGet k (UseState.countKeys words)) as [v|] eqn:E;
      simpl in Hlt; [|lia].
    apply list_elem_of_fmap. exists (k, v). split; [reflexivity|].
    apply list_elem_of_In, filter_In. split.
    + apply list_elem_of_In. now apply (mapGet_elem k v _ Hnd).
    + now apply Nat.ltb_lt.
Qed.

Lemma NoDup_filter_fst (f : string * nat -> bool) (m : list (string * nat)) :
  NoDup (map fst m) -> NoDup (map fst (List.filter f m)).
Proof.
  induction m as [|x m IH]; simpl; intros Hnd; [constructor|].
  apply NoDup_cons in Hnd as [Hnin Hnd].
  destruct (f x); simpl; [|now apply IH].
  apply NoDup_cons. split; [|now apply IH].
  intros Hin. apply Hnin.
  apply list_elem_of_fmap in Hin as [y [-> Hy]].
  apply list_elem_of_fmap. exists y. split; [reflexivity|].
  apply list_elem_of_In. apply list_elem_of_In, filter_In in Hy. tauto.
Qed.

Lemma inBatchDupKeys_NoDup words : NoDup (UseState.inBatchDupKeys words).
Proof. apply NoDup_filter_fst, countKeys_NoDup. Qed.

Lemma wordKeys_lower words k :
  k ∈ Spec.wordKeys words -> toLowerCase k = k.
Proof.
  intros Hin. apply list_elem_of_fmap in Hin as [w [-> _]].
  apply toLowerCase_idem.
Qed.

Lemma inBatchDupKeys_lower words :
  map toLowerCase (UseState.inBatchDupKeys words) =
  UseState.inBatchDupKeys words.
Proof.
  rewrite <- (map_id (UseState.inBatchDupKeys words)) at 2.
  apply map_ext_in. intros k Hin.
  apply list_elem_of_In, elem_of_inBatchDupKeys in Hin.
  apply (wordKeys_lower words), multiplicity_pos. lia.
Qed.

(** *** Assignments to a plain object *)

Lemma proto_inherited : "__proto__" ∈ JsObject.prototypeNames.
Proof. apply (bool_decide_unpack _). vm_compute. exact I. Qed.

Lemma lookup_assign (m : gmap string string) x v k :
  m !! "__proto__" = None ->
  JsObject.assign m x v !! k =
  if decide (x = k /\ k <> "__proto__") then Some v else m !! k.
Proof.
  intros Hproto. unfold JsObject.assign.
  destruct (bool_decide_reflect (x = "__proto__")) as [->|Hx].
  - rewrite Hproto. rewrite decide_False; [reflexivity|].
    intros [<- H]. now apply H.
  - destruct (decide (x = k)) as [->|Hne].
    + rewrite lookup_insert_eq. now rewrite decide_True.
    + rewrite lookup_insert_ne by exact Hne.
      rewrite decide_False; [reflexivity | tauto].
Qed.

(** Entering keys by assignment of the empty string: every key but
    [__proto__] gets an entry. *)
Lemma lookup_fold_assign_empty (keys : list string) :
  forall (m : gmap string string) k,
    m !! "__proto__" = None ->
    fold_left (fun map k => JsObject.assign map k "") keys m !! k =
    if decide (k ∈ keys /\ k <> "__proto__") then Some "" else m !! k.
Proof.
  induction keys as [|x keys IH]; intros m k Hm; cbn [fold_left].
  - rewrite decide_False; [reflexivity | intros [H _]; inversion H].
  - rewrite IH.
    2:{ rewrite lookup_assign by exact Hm.
        rewrite decide_False; [exact Hm | tauto]. }
    rewrite lookup_assign by exact Hm.
    destruct (decide (k ∈ keys /\ k <> "__proto__")) as [[Hin Hk]|Hnin].
    + rewrite decide_True; [reflexivity | split; [now right | exact Hk]].
    + destruct (decide (x = k /\ k <> "__proto__")) as [[-> Hk]|Hne].
      * rewrite decide_True; [reflexivity | split; [left | exact Hk]].
      * rewrite decide_False; [reflexivity|].
        intros [Hin Hk]. apply elem_of_cons in Hin as [->|Hin]; tauto.
Qed.

Lemma fold_left_lower {A} (f : A -> string -> A) (keys : list string) :
  forall a,
    fold_left (fun acc k => f acc (toLowerCase k)) keys a =
    fold_left f (map toLowerCase keys) a.
Proof. induction keys as [|x keys IH]; intros a; simpl; [reflexivity | apply IH]. Qed.

Lemma initReplacementsFromList_lookup keys k :
  UseState.initReplacementsFromList keys !! k =
  if decide (k ∈ map toLowerCase keys /\ k <> "__proto__")
  then Some "" else None.
Proof.
  unfold UseState.initReplacementsFromList.
  rewrite (fold_left_lower (fun map k => JsObject.assign map k "")).
  rewrite lookup_fold_assign_empty by apply lookup_empty.
  now rewrite lookup_empty.
Qed.

End CountFacts.

(** * The claims *)

Section PureClaims.

Import Js.

Lemma UseState_parsed_clean raw : Forall Spec.cleanToken (UseState.parsed raw).
Proof. rewrite UseState_parsed_spec. apply Spec_parse_clean. Qed.

Lemma UseReducer_parsed_clean raw :
  Forall Spec.cleanToken (UseReducer.parsed raw).
Proof. rewrite UseReducer_parsed_spec. apply Spec_parse_clean. Qed.

Lemma UseState_isFinalValid_spec st :
  UseState.isFinalValid st = true <->
  Spec.finalValid
    (Spec.finalWordList (UseState.parsed (text st)) (replacements st)).
Proof.
  pose proof (finalWordList_clean (replacements st) _
                (UseState_parsed_clean (text st))) as Hclean.
  rewrite (finalValid_of_clean _ Hclean).
  unfold UseState.isFinalValid. rewrite UseState_buildFinal_spec.
  rewrite (existsb_not_truthy_clean _ Hclean).
  destruct (Nat.eqb_spec
              (length (Spec.finalWordList (UseState.parsed (text st))
                                          (replacements st))) 10) as [E|E];
    cbn [negb].
  - rewrite Nat.eqb_eq. tauto.
  - split; [discriminate | tauto].
Qed.

(** The reducer's [isFinalValid] throws exactly when [buildFinal] does, and
    it returns [true] exactly on a valid final list. *)
Lemma UseReducer_isFinalValid_throws st :
  UseReducer.isFinalValid st = None <->
  View.readsInherited (replacements st) (UseReducer.parsed (text st)) = true.
Proof.
  unfold UseReducer.isFinalValid. rewrite UseReducer_buildFinal_spec.
  destruct (View.readsInherited _ _); split; congruence.
Qed.

Lemma UseReducer_isFinalValid_spec st :
  UseReducer.isFinalValid st = Some true <->
  View.readsInherited (replacements st) (UseReducer.parsed (text st)) = false /\
  Spec.finalValid
    (Spec.finalWordList (UseReducer.parsed (text st)) (replacements st)).
Proof.
  pose proof (finalWordList_clean (replacements st) _
                (UseReducer_parsed_clean (text st))) as Hclean.
  rewrite (finalValid_of_clean _ Hclean).
  unfold UseReducer.isFinalValid. rewrite UseReducer_buildFinal_spec.
  destruct (View.readsInherited _ _); [split; [discriminate | now intros [? _]]|].
  destruct (Nat.eqb_spec
              (length (Spec.finalWordList (UseReducer.parsed (text st))
                                          (replacements st))) 10) as [E|E];
    cbn [negb].
  - split.
    + intros [= H]. apply Nat.eqb_eq in H. tauto.
    + intros (_ & _ & H). f_equal. now apply Nat.eqb_eq.
  - split; [discriminate | tauto].
Qed.

(** Where the reducer's [buildFinal] returns, it returns the final word
    list. *)
Lemma UseReducer_buildFinal_returns st final :
  UseReducer.buildFinal st = Some final ->
  final = Spec.finalWordList (UseReducer.parsed (text st)) (replacements st).
Proof.
  rewrite UseReducer_buildFinal_spec.
  destruct (View.readsInherited _ _); [discriminate | now intros [= <-]].
Qed.

Lemma finalValid_at_parsed (st : State) :
  UseReducer.parsed (text st) = UseState.parsed (text st) ->
  UseState.isFinalValid st = true ->
  Spec.finalValid
    (Spec.finalWordList (UseReducer.parsed (text st)) (replacements st)).
Proof. intros ->. apply UseState_isFinalValid_spec. Qed.

Lemma constructorTyped_reachable : UseReducer.reachable Sample.constructorTyped.
Proof.
  apply UseReducer.reachable_fire; [apply UseReducer.reachable_init|].
  split; [reflexivity | exact I].
Qed.

Lemma constructorReview_reachable :
  UseReducer.reachable Sample.constructorReview.
Proof.
  apply UseReducer.reachable_fire; [apply constructorTyped_reachable|].
  split; [reflexivity|]. split; vm_compute; reflexivity.
Qed.

Lemma catConstructorReview_reachable :
  UseReducer.reachable Sample.catConstructorReview.
Proof.
  apply UseReducer.reachable_fire.
  - apply UseReducer.reachable_fire; [apply UseReducer.reachable_init|].
    split; [reflexivity | exact I].
  - split; [reflexivity|]. split; vm_compute; reflexivity.
Qed.

(** C5. The reducer component at a state its runs reach, with the ten
    distinct words [constructor, tiger, ...] typed and the conflict editor
    open on [tiger]: the final word list has exactly 10 entries, none
    blank, with pairwise distinct lowercase forms, yet [isFinalValid()]
    does not return [true]: it throws, and with it the render.  On the same
    state the [isFinalValid()] of the [useState] component, which reads the
    map behind a [hasOwnProperty] test, returns [true]. *)
Theorem isFinalValid_throws_for_inherited_key :
  UseReducer.reachable Sample.constructorReview /\
  Spec.finalValid
    (Spec.finalWordList (UseReducer.parsed (text Sample.constructorReview))
                        (replacements Sample.constructorReview)) /\
  UseReducer.isFinalValid Sample.constructorReview = None /\
  UseReducer.renders Sample.constructorReview = false /\
  UseState.isFinalValid Sample.constructorReview = true.
Proof.
  split; [apply constructorReview_reachable|].
  split; [apply finalValid_at_parsed; vm_compute; reflexivity|].
  repeat split; vm_compute; reflexivity.
Qed.

(** C6. In both components the parsed list is the raw input split on runs
    of the delimiter characters (newline, comma, semicolon; in the reducer
    component also white space and the double quote), each token trimmed,
    empty tokens dropped, cut to the first 100; it is a total function of
    the raw input and never has more than 100 tokens. *)
Theorem parsed_is_parse (raw : string) :
  (UseState.parsed raw = Spec.parse UseState.isDelimiter raw /\
   UseReducer.parsed raw = Spec.parse UseReducer.isDelimiter raw) /\
  (length (UseState.parsed raw) <= 100 /\
   length (UseReducer.parsed raw) <= 100) /\
  (Forall (fun t => Spec.cleanToken t /\
                    anyChar UseState.isDelimiter t = false)
          (UseState.parsed raw) /\
   Forall (fun t => Spec.cleanToken t /\
                    anyChar UseReducer.isDelimiter t = false)
          (UseReducer.parsed raw)) /\
  (forall c, UseState.isDelimiter c = true <->
             c = "010"%char \/ c = ","%char \/ c = ";"%char) /\
  (forall c, UseReducer.isDelimiter c = true <->
             UseState.isDelimiter c = true \/ isWhiteSpace c = true \/
             c = ascii_of_N 34).
Proof.
  split; [split; [apply UseState_parsed_spec | apply UseReducer_parsed_spec]|].
  rewrite UseState_parsed_spec, UseReducer_parsed_spec.
  split; [split; apply Spec_parse_length|].
  split.
  { split; apply Forall_and; split;
      solve [apply Spec_parse_clean | apply Spec_parse_no_delimiter]. }
  split; intros c; destruct c as [[] [] [] [] [] [] [] []];
    vm_compute; split; intros H; try discriminate; try reflexivity;
    try (left; reflexivity); try (right; left; reflexivity);
    try (right; right; reflexivity);
    try (destruct H as [H|[H|H]]; discriminate).
Qed.

(** The [buildFinal] of the [useState] component returns a list as long as
    the parsed list whose entries are non-empty and trimmed. *)
Lemma UseState_buildFinal_length_clean (st : State) :
  length (UseState.buildFinal st) = length (UseState.parsed (text st)) /\
  Forall Spec.cleanToken (UseState.buildFinal st) /\
  Forall (fun f => ~ Spec.blank f) (UseState.buildFinal st).
Proof.
  pose proof (finalWordList_clean (replacements st) _
                (UseState_parsed_clean (text st))) as Hclean.
  rewrite UseState_buildFinal_spec. split; [|split].
  - unfold Spec.finalWordList. apply length_map.
  - exact Hclean.
  - eapply Forall_impl; [exact Hclean | apply clean_not_blank].
Qed.

(** So does the one of the reducer component where it returns. *)
Lemma UseReducer_buildFinal_length_clean (st : State) final :
  UseReducer.buildFinal st = Some final ->
  length final = length (UseReducer.parsed (text st)) /\
  Forall Spec.cleanToken final /\
  Forall (fun f => ~ Spec.blank f) final.
Proof.
  intros ->%UseReducer_buildFinal_returns.
  pose proof (finalWordList_clean (replacements st) _
                (UseReducer_parsed_clean (text st))) as Hclean.
  split; [|split].
  - unfold Spec.finalWordList. apply length_map.
  - exact Hclean.
  - eapply Forall_impl; [exact Hclean | apply clean_not_blank].
Qed.

(** C10. The reducer component with the ten words [constructor, tiger,
    ...] typed, a state its runs reach: [buildFinal()] returns no list, it
    throws.  Validate then sends the validation request only and, the
    server having accepted the words, shows the validation-failed message;
    nothing is posted.  On the same state the [buildFinal()] of the
    [useState] component returns the ten words. *)
Theorem buildFinal_throws_for_inherited_key :
  UseReducer.reachable Sample.constructorTyped /\
  length (UseReducer.parsed (text Sample.constructorTyped)) = 10 /\
  UseReducer.buildFinal Sample.constructorTyped = None /\
  snd (UseReducer.handleValidate Sample.constructorTyped Sample.allFine) =
    [PostValidate (UseReducer.parsed (text Sample.constructorTyped))] /\
  message (UseReducer.fire Sample.constructorTyped
                           (UseReducer.Validate Sample.allFine)) =
    Some "Validation failed" /\
  UseState.buildFinal Sample.constructorTyped =
    ["constructor"; "tiger"; "bear"; "wolf"; "fox"; "deer"; "hare"; "mole";
     "seal"; "orca"].
Proof.
  split; [apply constructorTyped_reachable|].
  repeat split; vm_compute; reflexivity.
Qed.

Lemma not_true_false (b : bool) : b <> true -> b = false.
Proof. destruct b; congruence. Qed.

(** With a key that occurs more than once, the [isFinalValid()] of the
    [useState] component is false whatever the replacement map is, and the
    one of the reducer component never returns [true]. *)
Lemma UseState_duplicate_key_never_final_valid
      (st : State) (k : string) (repl : gmap string string) :
  1 < Spec.multiplicity k (Spec.wordKeys (UseState.parsed (text st))) ->
  UseState.isFinalValid (setReplacements repl st) = false.
Proof.
  intros Hdup. apply not_true_false. intros Hvalid.
  apply UseState_isFinalValid_spec, finalValid_keys_NoDup in Hvalid.
  cbn [text setReplacements] in Hvalid.
  apply NoDup_multiplicity with (k := k) in Hvalid. lia.
Qed.

Lemma UseReducer_duplicate_key_never_final_valid
      (st : State) (k : string) (repl : gmap string string) :
  1 < Spec.multiplicity k (Spec.wordKeys (UseReducer.parsed (text st))) ->
  UseReducer.isFinalValid (setReplacements repl st) <> Some true.
Proof.
  intros Hdup Hvalid.
  apply UseReducer_isFinalValid_spec in Hvalid as [_ Hvalid].
  apply finalValid_keys_NoDup in Hvalid.
  cbn [text setReplacements] in Hvalid.
  apply NoDup_multiplicity with (k := k) in Hvalid. lia.
Qed.

(** C9. The reducer component at a state its runs reach, with ten words
    typed among which [cat] twice and [constructor], and the conflict
    editor open on [cat]: a WordKey occurs more than once, yet
    [isFinalValid()] does not return [false]: it throws.  On the same state
    the [isFinalValid()] of the [useState] component returns [false]. *)
Theorem isFinalValid_throws_on_duplicate_batch :
  UseReducer.reachable Sample.catConstructorReview /\
  1 < Spec.multiplicity "cat"
        (Spec.wordKeys (UseReducer.parsed (text Sample.catConstructorReview))) /\
  UseReducer.isFinalValid Sample.catConstructorReview = None /\
  UseState.isFinalValid Sample.catConstructorReview = false.
Proof.
  split; [apply catConstructorReview_reachable|].
  split; [vm_compute; lia|].
  split; vm_compute; reflexivity.
Qed.

End PureClaims.

(** ** Validation: local duplicates and reported conflicts *)

Section ValidateClaims.

Import Js.

Lemma no_local_duplicates words :
  NoDup (Spec.wordKeys words) -> UseState.inBatchDupKeys words = [].
Proof.
  intros Hnd. destruct (UseState.inBatchDupKeys words) as [|k l] eqn:E;
    [reflexivity|].
  assert (k ∈ UseState.inBatchDupKeys words) as Hin by (rewrite E; left).
  apply elem_of_inBatchDupKeys in Hin.
  apply NoDup_multiplicity with (k := k) in Hnd. lia.
Qed.

(** With exactly 10 parsed tokens and some WordKey occurring more than
    once, [handleValidate] of the [useState] component sends no request,
    sets the conflict set to an empty [db] list and the locally counted
    duplicate keys as [inBatch] (each key of multiplicity above 1, once),
    and shows the replace-duplicates message; the replacements hold the
    empty string under those keys, [__proto__] excepted. *)
Lemma UseState_handleValidate_local_duplicates
      (st : State) (env : Env) (k : string) :
  length (UseState.parsed (text st)) = 10 ->
  1 < Spec.multiplicity k (Spec.wordKeys (UseState.parsed (text st))) ->
  let words := UseState.parsed (text st) in
  let keys := UseState.inBatchDupKeys words in
  let st' := fst (UseState.handleValidate st env) in
  snd (UseState.handleValidate st env) = [] /\
  conflicts st' = Some (mkConflicts [] keys) /\
  (NoDup keys /\
   forall k', k' ∈ keys <-> 1 < Spec.multiplicity k' (Spec.wordKeys words)) /\
  (forall k', replacements st' !! k' =
              if decide (k' ∈ keys /\ k' <> "__proto__")
              then Some "" else None) /\
  message st' = Some UseState.localDuplicateMessage.
Proof.
  intros Hlen Hdup words keys st'. subst st'.
  assert (Nat.ltb 0 (length keys) = true) as Hpos.
  { apply elem_of_inBatchDupKeys in Hdup. fold words keys in Hdup.
    destruct keys; [inversion Hdup | reflexivity]. }
  assert (UseState.handleValidate st env =
          (setMessage (Some UseState.localDuplicateMessage)
             (setReplacements (UseState.initReplacementsFromList keys)
                (setConflicts (Some (mkConflicts [] keys))
                   (setConflicts None (setMessage None st)))), [])) as Hrun.
  { unfold UseState.handleValidate. cbv zeta. rewrite Hlen.
    change (negb (Nat.eqb 10 10)) with false. cbv iota.
    fold words. fold keys. rewrite Hpos. subst keys.
    now rewrite inBatchDupKeys_lower. }
  rewrite Hrun. cbn [fst snd].
  split; [reflexivity|]. split; [reflexivity|]. split.
  - split; [apply inBatchDupKeys_NoDup | apply elem_of_inBatchDupKeys].
  - split; [|reflexivity]. intros k'.
    cbn [replacements setMessage setReplacements].
    rewrite initReplacementsFromList_lookup.
    subst keys. now rewrite inBatchDupKeys_lower.
Qed.

Lemma UseState_handleValidate_local_duplicates_cat :
  snd (UseState.handleValidate (setText Sample.catWords initialState)
                               Sample.offline) = [] /\
  conflicts (fst (UseState.handleValidate
                    (setText Sample.catWords initialState) Sample.offline))
  = Some (mkConflicts [] ["cat"]) /\
  replacements (fst (UseState.handleValidate
                       (setText Sample.catWords initialState) Sample.offline))
  !! "cat" = Some "".
Proof.
  destruct (UseState_handleValidate_local_duplicates
              (setText Sample.catWords initialState) Sample.offline "cat")
    as (Hreq & Hconf & _ & Hrep & _).
  - vm_compute. reflexivity.
  - vm_compute. lia.
  - split; [exact Hreq|]. split.
    + rewrite Hconf. vm_compute. reflexivity.
    + rewrite Hrep. vm_compute. reflexivity.
Qed.

(** C2. Two states with exactly 10 parsed tokens and a WordKey that occurs
    twice.  In the reducer component, with [cat] twice, [handleValidate]
    sets no conflict set of its own: whatever the network answers, its
    first request is the validation of the ten words, duplicates
    included.  In the [useState] component, with [__proto__] twice, no
    request is sent and the conflict set holds the key, but the
    replacements hold no entry for it, and the conflict editor cannot be
    rendered. *)
Theorem handleValidate_duplicates_diverge :
  (length (UseReducer.parsed Sample.catWords) = 10 /\
   1 < Spec.multiplicity "cat"
         (Spec.wordKeys (UseReducer.parsed Sample.catWords)) /\
   forall env,
     exists reqs,
       snd (UseReducer.handleValidate
              (setText Sample.catWords initialState) env) =
       PostValidate ["cat"; "dog"; "cat"; "bird"; "fox"; "deer"; "hare";
                     "mole"; "seal"; "orca"] :: reqs) /\
  (length (UseState.parsed Sample.protoWords) = 10 /\
   1 < Spec.multiplicity "__proto__"
         (Spec.wordKeys (UseState.parsed Sample.protoWords)) /\
   forall env,
     let st' := fst (UseState.handleValidate
                       (setText Sample.protoWords initialState) env) in
     snd (UseState.handleValidate
            (setText Sample.protoWords initialState) env) = [] /\
     conflicts st' = Some (mkConflicts [] ["__proto__"]) /\
     replacements st' = ∅ /\
     UseState.renders st' = false).
Proof.
  split.
  - split; [vm_compute; reflexivity|]. split; [vm_compute; lia|].
    intros env. unfold UseReducer.handleValidate. cbv zeta.
    change (UseReducer.parsed (text (setText Sample.catWords initialState)))
      with ["cat"; "dog"; "cat"; "bird"; "fox"; "deer"; "hare"; "mole";
            "seal"; "orca"].
    cbn [length Nat.eqb negb].
    destruct (postValidate env _) as [res|err]; [|eexists; reflexivity].
    destruct (ok res), (vConflicts res);
      try (eexists; reflexivity);
      destruct (UseReducer.buildFinal _);
      try (eexists; reflexivity);
      destruct (UseReducer.submitFinal _ _ _); eexists; reflexivity.
  - split; [vm_compute; reflexivity|]. split; [vm_compute; lia|].
    intros env. repeat split; vm_compute; reflexivity.
Qed.

(** The map built from a validation answer: a key is entered unless it is
    an inherited name. *)
Lemma replacements_step_lookup (m : gmap string string) x k :
  (forall k' v, m !! k' = Some v -> v = "") ->
  match JsObject.get m x with
  | JsObject.Undefined => JsObject.assign m x ""
  | _ => m
  end !! k =
  if decide (x = k /\ k ∉ JsObject.prototypeNames) then Some "" else m !! k.
Proof.
  intros Hm. unfold JsObject.get.
  destruct (m !! x) as [v|] eqn:E.
  - destruct (decide _) as [[<- _]|_]; [|reflexivity].
    rewrite E. f_equal. now apply (Hm _ _ E).
  - destruct (bool_decide_reflect (x ∈ JsObject.prototypeNames)) as [Hx|Hx].
    + rewrite decide_False; [reflexivity|]. intros [<- H]. now apply H.
    + unfold JsObject.assign.
      rewrite bool_decide_eq_false_2
        by (intros ->; apply Hx, proto_inherited).
      destruct (decide (x = k)) as [<-|Hne].
      * rewrite lookup_insert_eq. now rewrite decide_True.
      * rewrite lookup_insert_ne by exact Hne.
        rewrite decide_False; [reflexivity | tauto].
Qed.

Lemma replacements_fold_lookup (keys : list string) :
  forall (m : gmap string string) k,
    (forall k' v, m !! k' = Some v -> v = "") ->
    fold_left
      (fun map k =>
         match JsObject.get map (toLowerCase k) with
         | JsObject.Undefined => JsObject.assign map (toLowerCase k) ""
         | _ => map
         end) keys m !! k =
    if decide (k ∈ map toLowerCase keys /\ k ∉ JsObject.prototypeNames)
    then Some "" else m !! k.
Proof.
  induction keys as [|x keys IH]; intros m k Hm; cbn [fold_left map].
  - rewrite decide_False; [reflexivity | intros [H _]; inversion H].
  - rewrite IH.
    + rewrite replacements_step_lookup by exact Hm.
      destruct (decide (k ∈ map toLowerCase keys /\ _)) as [[Hin Hk]|Hnin].
      * rewrite decide_True; [reflexivity | split; [now right | exact Hk]].
      * destruct (decide (toLowerCase x = k /\ _)) as [[<- Hk]|Hne].
        -- rewrite decide_True; [reflexivity | split; [left | exact Hk]].
        -- rewrite decide_False; [reflexivity|].
           intros [Hin Hk]. apply elem_of_cons in Hin as [->|Hin]; tauto.
    + intros k' v. rewrite replacements_step_lookup by exact Hm.
      destruct (decide _); [now intros [= <-] | apply Hm].
Qed.

Lemma replacementsOfConflicts_lookup c k :
  UseState.replacementsOfConflicts c !! k =
  if decide (k ∈ map toLowerCase (db c ++ inBatch c) /\
             k ∉ JsObject.prototypeNames)
  then Some "" else None.
Proof.
  unfold UseState.replacementsOfConflicts.
  rewrite replacements_fold_lookup.
  - now rewrite lookup_empty.
  - intros k' v. now rewrite lookup_empty.
Qed.

Lemma ltb_length_nonempty {A} (l : list A) :
  Nat.ltb 0 (length l) = true <-> l <> [].
Proof.
  destruct l; simpl; split; intros H; try discriminate; try reflexivity.
  now contradiction H.
Qed.

(** When the validation request of the [useState] component is answered
    with conflicts (at least one of [db], [inBatch] non-empty), the conflict
    set is stored with every key in lowercase, and the replacements map
    holds the empty string under the lowercase keys of [db] and [inBatch]
    together, the inherited names excepted. *)
Lemma UseState_handleValidate_server_conflicts
      (st : State) (env : Env) (res : ValidateData) (c : Conflicts) :
  length (UseState.parsed (text st)) = 10 ->
  NoDup (Spec.wordKeys (UseState.parsed (text st))) ->
  postValidate env (UseState.parsed (text st)) = Ok res ->
  vConflicts res = Some c ->
  db c <> [] \/ inBatch c <> [] ->
  let st' := fst (UseState.handleValidate st env) in
  conflicts st' =
    Some (mkConflicts (map toLowerCase (db c)) (map toLowerCase (inBatch c))) /\
  (forall k, replacements st' !! k =
             if decide (k ∈ map toLowerCase (db c ++ inBatch c) /\
                        k ∉ JsObject.prototypeNames)
             then Some "" else None) /\
  message st' = Some UseState.validateConflictMessage /\
  loading st' = false /\
  text st' = text st /\
  snd (UseState.handleValidate st env) =
    [PostValidate (UseState.parsed (text st))].
Proof.
  intros Hlen Hnd Hreply Hc Hne st'. subst st'.
  assert (Nat.ltb 0 (length (db c)) || Nat.ltb 0 (length (inBatch c)) = true)
    as Hsome.
  { apply orb_true_iff. rewrite !ltb_length_nonempty. exact Hne. }
  unfold UseState.handleValidate. cbv zeta. rewrite Hlen.
  change (negb (Nat.eqb 10 10)) with false. cbv iota.
  rewrite (no_local_duplicates _ Hnd).
  change (Nat.ltb 0 (length (@nil string))) with false. cbv iota.
  rewrite Hreply, Hc.
  change (default (mkConflicts [] []) (Some c)) with c.
  rewrite Hsome. cbn [fst snd].
  repeat split; try reflexivity.
  intros k. cbn [replacements setLoading setMessage setConflicts setReplacements].
  apply replacementsOfConflicts_lookup.
Qed.

Lemma UseState_handleValidate_server_conflicts_apple :
  replacements
    (fst (UseState.handleValidate (setText Sample.appleWords initialState)
                                  Sample.appleTaken)) !! "apple" = Some "".
Proof.
  destruct (UseState_handleValidate_server_conflicts
              (setText Sample.appleWords initialState) Sample.appleTaken
              (mkValidateData false (Some (mkConflicts ["apple"] [])))
              (mkConflicts ["apple"] []))
    as (_ & Hrep & _).
  - vm_compute. reflexivity.
  - apply (bool_decide_unpack _). vm_compute. exact I.
  - reflexivity.
  - reflexivity.
  - left. discriminate.
  - rewrite Hrep. vm_compute. reflexivity.
Qed.

(** The reducer component stores the conflict set of the answer as it was
    received, and only when [ok] is false. *)
Lemma UseReducer_handleValidate_conflicts_as_received
      (st : State) (env : Env) (res : ValidateData) (c : Conflicts) :
  length (UseReducer.parsed (text st)) = 10 ->
  postValidate env (UseReducer.parsed (text st)) = Ok res ->
  ok res = false ->
  vConflicts res = Some c ->
  let st' := UseReducer.dispatchAll st
               (fst (UseReducer.handleValidate st env)) in
  conflicts st' = Some c /\
  forall k, replacements st' !! k =
            if decide (k ∈ map toLowerCase (db c ++ inBatch c) /\
                       k <> "__proto__")
            then Some "" else None.
Proof.
  intros Hlen Hreply Hok Hc st'. subst st'.
  unfold UseReducer.handleValidate. cbv zeta. rewrite Hlen.
  change (negb (Nat.eqb 10 10)) with false. cbv iota.
  rewrite Hreply, Hok, Hc. split; [reflexivity|]. intros k.
  cbn [fst UseReducer.dispatchAll fold_left app UseReducer.reducer
       replacements setLoading setMessage setReplacements setConflicts].
  exact (initReplacementsFromList_lookup (db c ++ inBatch c) k).
Qed.

(** C4. Three validation responses that report a conflict.  The reducer
    component, answered [ok: false] with the key [Apple], stores the
    conflict set as received, not in lowercase, while the replacement is
    entered under [apple]; answered [ok: true] together with the conflict
    [apple], it stores no conflict set and posts the words.  The [useState]
    component, answered with the conflict [constructor], stores the key but
    enters no replacement for it, and the conflict editor cannot be
    rendered. *)
Theorem handleValidate_conflicts_diverge :
  (conflicts Sample.appleCapitalReview = Some (mkConflicts ["Apple"] []) /\
   replacements Sample.appleCapitalReview = {["apple" := ""]}) /\
  (let st := setText Sample.appleWords initialState in
   conflicts (UseReducer.fire st (UseReducer.Validate Sample.okWithConflicts))
     = None /\
   snd (UseReducer.handleValidate st Sample.okWithConflicts) =
     [PostValidate (UseReducer.parsed Sample.appleWords);
      PostWords (UseReducer.parsed Sample.appleWords)]) /\
  (let st' := fst (UseState.handleValidate
                     (setText Sample.constructorWords initialState)
                     Sample.constructorTaken) in
   conflicts st' = Some (mkConflicts ["constructor"] []) /\
   replacements st' = ∅ /\
   UseState.renders st' = false).
Proof. repeat split; vm_compute; reflexivity. Qed.

End ValidateClaims.

(** ** Failures of the validation and of the submit request *)

Section FailureClaims.

Import Js.

Lemma orElse_nonempty x fallback : fallback <> "" -> orElse x fallback <> "".
Proof.
  intros Hf. unfold orElse. destruct x as [e|]; [|exact Hf].
  destruct (truthy e) eqn:E; [now apply truthy_true | exact Hf].
Qed.

Lemma UseState_errorMessage_nonempty err fallback :
  fallback <> "" -> UseState.errorMessage err fallback <> "".
Proof.
  intros Hf. unfold UseState.errorMessage.
  destruct (UseState.isApiError err); [now apply orElse_nonempty | exact Hf].
Qed.

Lemma UseReducer_errorMessage_nonempty err fallback :
  fallback <> "" -> UseReducer.errorMessage err fallback <> "".
Proof.
  intros Hf. unfold UseReducer.errorMessage.
  destruct (UseReducer.isApiError err); [now apply orElse_nonempty | exact Hf].
Qed.



Lemma appleReview_reachable : UseState.reachable Sample.appleReview.
Proof.
  unfold Sample.appleReview. apply UseState.reachable_fire.
  - apply UseState.reachable_fire; [apply UseState.reachable_init|].
    split; [reflexivity | exact I].
  - split; [reflexivity|]. split; vm_compute; reflexivity.
Qed.


(** Every failure of the optimistic submit ends in the snapshot with the
    error message and the loading flag cleared. *)
Lemma UseReducer_submitFinal_failure
      (store state : State) (finalWords : list string) (env : Env)
      (f : Failure) :
  postWords env finalWords = Failed f ->
  UseReducer.dispatchAll store
    (fst (UseReducer.submitFinal state finalWords env)) =
  mkState (text state) (conflicts state) (replacements state)
          (Some (UseReducer.errorMessage f "Submit failed")) false
          (savedWords state) (savedLoading state) (savedError state) /\
  snd (UseReducer.submitFinal state finalWords env) = [PostWords finalWords].
Proof.
  intros Hreply. unfold UseReducer.submitFinal. cbv zeta.
  rewrite Hreply. split; reflexivity.
Qed.

(** C3. When the submit request of the optimistic protocol fails with
    anything but a 409, the state after the handler is the snapshot taken
    before the optimistic update -- the raw text is the same string, and so
    are conflict set, replacements and saved words -- with a non-empty
    error message, and the loading flag is cleared. [store] is the state
    the dispatches act on; it may have moved on since the snapshot [state]
    was taken (text typed while the request was in flight, the dispatches
    of [handleValidate]). *)
Theorem submitFinal_failure_rolls_back
        (store state : State) (finalWords : list string) (env : Env)
        (f : Failure) :
  postWords env finalWords = Failed f ->
  (forall data, f <> ResponseError 409 data) ->
  let st' := UseReducer.dispatchAll store
               (fst (UseReducer.submitFinal state finalWords env)) in
  st' = setLoading false
          (setMessage (Some (UseReducer.errorMessage f "Submit failed")) state) /\
  text st' = text state /\
  conflicts st' = conflicts state /\
  replacements st' = replacements state /\
  (exists m, message st' = Some m /\ m <> "") /\
  loading st' = false.
Proof.
  intros Hreply _ st'. subst st'.
  destruct (UseReducer_submitFinal_failure store state finalWords env f Hreply)
    as [-> _].
  repeat split. eexists. split; [reflexivity|].
  now apply UseReducer_errorMessage_nonempty.
Qed.

Lemma submitFinal_failure_rolls_back_witness :
  text (UseReducer.dispatchAll
          (setText Sample.tenWords initialState)
          (fst (UseReducer.submitFinal
                  (setText Sample.tenWords initialState)
                  (UseReducer.parsed Sample.tenWords)
                  Sample.serverDown)))
  = Sample.tenWords.
Proof.
  destruct (submitFinal_failure_rolls_back
              (setText Sample.tenWords initialState)
              (setText Sample.tenWords initialState)
              (UseReducer.parsed Sample.tenWords)
              Sample.serverDown
              (ResponseError 500 (mkErrorData None None)))
    as (_ & Htext & _).
  - reflexivity.
  - intros data. discriminate.
  - exact Htext.
Defined.

(** C1, the optimistic component at the failing input. Ten words are
    validated; the validation answers [{ ok: true }] and the submit that
    follows is answered with HTTP 409 and [conflicts: { db: [], inBatch:
    ["lion"] }]. The text is restored, but the conflict set and the
    replacements are those of the snapshot (none), not the server's; only
    the error text of the response is shown. The same when
    [submitFinal(buildFinal())] is run on its own, as the Submit
    replacements button does. *)
Theorem optimistic_submit_409_drops_server_conflicts :
  let st := setText Sample.tenWords initialState in
  let viaValidate :=
    UseReducer.dispatchAll st
      (fst (UseReducer.handleValidate st Sample.lionConflict)) in
  let direct :=
    UseReducer.dispatchAll st
      (fst (UseReducer.onSubmitReplacements st Sample.lionConflict)) in
  (text viaValidate = Sample.tenWords /\
   conflicts viaValidate = None /\
   replacements viaValidate = ∅ /\
   message viaValidate = Some "Duplicate words" /\
   loading viaValidate = false) /\
  snd (UseReducer.handleValidate st Sample.lionConflict) =
    [PostValidate (UseReducer.parsed Sample.tenWords);
     PostWords (UseReducer.parsed Sample.tenWords)] /\
  direct = viaValidate.
Proof.
  intros st viaValidate direct.
  assert (direct =
          mkState Sample.tenWords None ∅ (Some "Duplicate words") false
                  [] false None) as Hdirect.
  { subst direct st. vm_compute. reflexivity. }
  assert (viaValidate =
          mkState Sample.tenWords None ∅ (Some "Duplicate words") false
                  [] false None) as Hvia.
  { subst viaValidate st. vm_compute. reflexivity. }
  rewrite Hdirect, Hvia. repeat split.
Qed.

(** The pessimistic sibling does show the server's conflicts: on a 409
    with a conflicts payload its [catch] block stores the payload in
    lowercase and keys the replacements by it, and the text was never
    cleared; [__proto__] alone gets no replacement entry. *)
Lemma UseState_submitFinal_409
      (s : State) (finalWords : list string) (env : Env)
      (e : option string) (c : Conflicts) :
  postWords env finalWords =
    Failed (ResponseError 409 (mkErrorData e (Some c))) ->
  let st' := fst (UseState.submitFinal s finalWords env) in
  text st' = text s /\
  conflicts st' =
    Some (mkConflicts (map toLowerCase (db c)) (map toLowerCase (inBatch c))) /\
  (forall k, replacements st' !! k =
             if decide (k ∈ map toLowerCase (db c ++ inBatch c) /\
                        k <> "__proto__")
             then Some "" else None) /\
  message st' = Some UseState.submitConflictMessage /\
  loading st' = false.
Proof.
  intros Hreply st'. subst st'. unfold UseState.submitFinal. cbv zeta.
  rewrite Hreply. unfold UseState.submitCatch, UseState.conflictResponse.
  rewrite Nat.eqb_refl. cbn [fst errConflicts].
  repeat split. intros k.
  cbn [replacements setLoading setMessage setReplacements].
  rewrite lookup_fold_assign_empty by apply lookup_empty.
  rewrite lookup_empty, map_app. reflexivity.
Qed.

Lemma UseState_submitFinal_409_lion :
  let st := setText Sample.tenWords initialState in
  let st' := fst (UseState.submitFinal st (UseState.buildFinal st)
                                       Sample.lionConflict) in
  text st' = Sample.tenWords /\
  conflicts st' = Some (mkConflicts [] ["lion"]) /\
  replacements st' !! "lion" = Some "".
Proof. vm_compute. repeat split. Qed.

End FailureClaims.

(** ** Replacements and the conflict set along the runs of the component *)

Section InvariantClaims.

Import Js.

Lemma dispatchAll_app store acts1 acts2 :
  UseReducer.dispatchAll store (acts1 ++ acts2) =
  UseReducer.dispatchAll (UseReducer.dispatchAll store acts1) acts2.
Proof. unfold UseReducer.dispatchAll. apply fold_left_app. Qed.

Lemma appleRetryOffline_reachable : UseState.reachable Sample.appleRetryOffline.
Proof.
  unfold Sample.appleRetryOffline.
  apply UseState.reachable_fire; [apply appleReview_reachable|].
  split; [vm_compute; reflexivity|]. split; vm_compute; reflexivity.
Qed.

Lemma appleCapitalReview_reachable :
  UseReducer.reachable Sample.appleCapitalReview.
Proof.
  apply UseReducer.reachable_fire.
  - apply UseReducer.reachable_fire; [apply UseReducer.reachable_init|].
    split; [reflexivity | exact I].
  - split; [reflexivity|]. split; vm_compute; reflexivity.
Qed.

(** Clear, Cancel, [RESET_FORM] and the reset after a stored submission
    empty the replacements together with the conflict set. *)
Lemma resets_clear_both (st : State) :
  (replacements (UseState.onClear st) = ∅ /\
   conflicts (UseState.onClear st) = None /\
   text (UseState.onClear st) = "") /\
  (replacements (UseState.onCancel st) = ∅ /\
   conflicts (UseState.onCancel st) = None) /\
  (replacements (UseReducer.reducer st UseReducer.RESET_FORM) = ∅ /\
   conflicts (UseReducer.reducer st UseReducer.RESET_FORM) = None /\
   text (UseReducer.reducer st UseReducer.RESET_FORM) = "").
Proof. repeat split. Qed.

(** C8. Two states the runs reach in which a replacement key belongs to no
    conflict set.  In the [useState] component, after a validation that
    reported [apple] and a second validation that failed on the network,
    the conflict set is absent while the replacements still hold the key
    [apple]: [handleValidate] clears the conflict set and leaves the
    replacements.  In the reducer component, after the server reported
    [Apple], the conflict set holds [Apple] and the replacements the key
    [apple]. *)
Theorem replacements_outside_conflict_set :
  (UseState.reachable Sample.appleRetryOffline /\
   conflicts Sample.appleRetryOffline = None /\
   replacements Sample.appleRetryOffline = {["apple" := ""]} /\
   ~ Spec.replacementKeysInConflictSet Sample.appleRetryOffline) /\
  (UseReducer.reachable Sample.appleCapitalReview /\
   conflicts Sample.appleCapitalReview = Some (mkConflicts ["Apple"] []) /\
   replacements Sample.appleCapitalReview = {["apple" := ""]} /\
   ~ Spec.replacementKeysInConflictSet Sample.appleCapitalReview).
Proof.
  split.
  - split; [apply appleRetryOffline_reachable|].
    split; [vm_compute; reflexivity|]. split; [vm_compute; reflexivity|].
    intros Hclaim. destruct (Hclaim "apple") as (c & Hc & _).
    + apply elem_of_dom. exists "". vm_compute. reflexivity.
    + vm_compute in Hc. discriminate Hc.
  - split; [apply appleCapitalReview_reachable|].
    split; [vm_compute; reflexivity|]. split; [vm_compute; reflexivity|].
    intros Hclaim. destruct (Hclaim "apple") as (c & Hc & Hin).
    + apply elem_of_dom. exists "". vm_compute. reflexivity.
    + vm_compute in Hc. injection Hc as <-.
      cbn [db inBatch app] in Hin.
      apply list_elem_of_singleton in Hin. discriminate Hin.
Qed.

End InvariantClaims.

(** * Further properties of the code *)

(** ** Parsing what was parsed *)

Section ParseRoundTrip.

Import Js.

Lemma append_assoc_string (a b c : string) :
  (a +:+ b) +:+ c = a +:+ (b +:+ c).
Proof.
  induction a as [|x a IH]; [reflexivity|].
  change (String x ((a +:+ b) +:+ c) = String x (a +:+ (b +:+ c))).
  now f_equal.
Qed.

Lemma append_cons c (a b : string) : String c a +:+ b = String c (a +:+ b).
Proof. reflexivity. Qed.

Lemma append_empty_r (a : string) : a +:+ "" = a.
Proof.
  induction a as [|x a IH]; [reflexivity|].
  change (String x (a +:+ "") = String x a). now f_equal.
Qed.

(** A delimiter-free stretch of the input extends the current token. *)
Lemma runsFrom_stretch d t : forall tok rest,
  anyChar d t = false ->
  Spec.runsFrom d tok (t +:+ rest) = Spec.runsFrom d (tok +:+ t) rest.
Proof.
  induction t as [|c t IH]; intros tok rest Hfree; simpl.
  - now rewrite append_empty_r.
  - simpl in Hfree. apply orb_false_iff in Hfree as [Hc Ht].
    rewrite Hc, IH by exact Ht.
    now rewrite append_assoc_string.
Qed.

Lemma runs_join d (sep : ascii) (tokens : list string) :
  d sep = true ->
  Forall (fun t => t <> "" /\ anyChar d t = false) tokens ->
  Spec.runs d (join (String sep EmptyString) tokens) = tokens.
Proof.
  intros Hsep Hall. unfold Spec.runs, join.
  induction Hall as [|t tokens [Hne Hfree] Hrest IH]; [reflexivity|].
  destruct tokens as [|t' tokens].
  - cbn [String.concat]. rewrite <- (append_empty_r t) at 1.
    rewrite runsFrom_stretch by exact Hfree.
    simpl. destruct t; [now contradiction Hne | reflexivity].
  - change (String.concat (String sep "") (t :: t' :: tokens))
      with (t +:+ String sep "" +:+ String.concat (String sep "") (t' :: tokens)).
    rewrite runsFrom_stretch by exact Hfree.
    remember (String.concat (String sep "") (t' :: tokens)) as rest eqn:Erest.
    change (Spec.runsFrom d t (String sep rest) = t :: t' :: tokens).
    cbn [Spec.runsFrom]. rewrite Hsep.
    destruct t; [now contradiction Hne|]. now rewrite IH.
Qed.

Lemma map_trim_clean (tokens : list string) :
  Forall Spec.cleanToken tokens -> map trim tokens = tokens.
Proof.
  induction 1 as [|t tokens [_ Ht] _ IH]; simpl; [reflexivity|].
  now rewrite Ht, IH.
Qed.

Lemma filter_nonempty_clean (tokens : list string) :
  Forall Spec.cleanToken tokens ->
  filter (fun t => t <> "") tokens = tokens.
Proof.
  induction 1 as [|t tokens [Hne _] _ IH]; [reflexivity|].
  rewrite filter_cons_True by exact Hne. now rewrite IH.
Qed.

Lemma parse_join d (sep : ascii) (tokens : list string) :
  d sep = true ->
  length tokens <= 100 ->
  Forall (fun t => Spec.cleanToken t /\ anyChar d t = false) tokens ->
  Spec.parse d (join (String sep EmptyString) tokens) = tokens.
Proof.
  intros Hsep Hlen Hall. unfold Spec.parse.
  rewrite runs_join; [|exact Hsep|].
  - assert (Forall Spec.cleanToken tokens) as Hclean
        by (eapply Forall_impl; [exact Hall | now intros t [? _]]).
    rewrite map_trim_clean, filter_nonempty_clean by exact Hclean.
    now apply take_ge.
  - eapply Forall_impl; [exact Hall|]. intros t [[Hne _] Hfree]. now split.
Qed.

Lemma Spec_parse_tokens d raw :
  Forall (fun t => Spec.cleanToken t /\ anyChar d t = false)
         (Spec.parse d raw).
Proof.
  apply Forall_and. split;
    [apply Spec_parse_clean | apply Spec_parse_no_delimiter].
Qed.

(** X1. Parsing is stable: the parsed words, joined by commas (or by
    semicolons or line breaks) and parsed again, are the same words. In
    both components. *)
Theorem parsed_join_parsed (raw : string) (sep : ascii) :
  sep = ","%char \/ sep = ";"%char \/ sep = "010"%char ->
  UseState.parsed (join (String sep EmptyString) (UseState.parsed raw)) =
    UseState.parsed raw /\
  UseReducer.parsed (join (String sep EmptyString) (UseReducer.parsed raw)) =
    UseReducer.parsed raw.
Proof.
  intros Hsep. split.
  - rewrite !UseState_parsed_spec. apply parse_join.
    + destruct Hsep as [-> | [-> | ->]]; reflexivity.
    + apply Spec_parse_length.
    + apply Spec_parse_tokens.
  - rewrite !UseReducer_parsed_spec. apply parse_join.
    + destruct Hsep as [-> | [-> | ->]]; reflexivity.
    + apply Spec_parse_length.
    + apply Spec_parse_tokens.
Qed.

Lemma parsed_join_parsed_witness :
  UseState.parsed (join "," (UseState.parsed " a b ,, C;d ")) =
  ["a b"; "C"; "d"].
Proof.
  destruct (parsed_join_parsed " a b ,, C;d " ","%char) as [H _].
  - left. reflexivity.
  - rewrite H. vm_compute. reflexivity.
Defined.

End ParseRoundTrip.

(** ** Replacements and the final list *)

Section ReplacementFacts.

Import Js.

Lemma finalWord_no_replacement repl w :
  Spec.cleanToken w ->
  (forall r, repl !! toLowerCase w = Some r -> Spec.blank r) ->
  Spec.finalWord repl w = w.
Proof.
  intros [_ Htrim] Hblank. unfold Spec.finalWord.
  destruct (repl !! toLowerCase w) as [r|]; [|exact Htrim].
  rewrite decide_True by now apply Hblank. exact Htrim.
Qed.

Lemma finalWordList_no_replacement repl words :
  Forall Spec.cleanToken words ->
  View.noReplacementApplies repl words ->
  Spec.finalWordList words repl = words.
Proof.
  intros Hclean Hnone. unfold Spec.finalWordList.
  rewrite <- (map_id words) at 2. apply map_ext_in. intros w Hin.
  apply finalWord_no_replacement.
  - rewrite Forall_forall in Hclean. apply Hclean. now apply list_elem_of_In.
  - intros r. apply Hnone. now apply list_elem_of_In.
Qed.

Lemma UseState_buildFinal_plain st :
  View.noReplacementApplies (replacements st) (UseState.parsed (text st)) ->
  UseState.buildFinal st = UseState.parsed (text st).
Proof.
  intros Hnone. rewrite UseState_buildFinal_spec.
  apply finalWordList_no_replacement;
    [apply UseState_parsed_clean | exact Hnone].
Qed.

Lemma UseReducer_buildFinal_plain st :
  View.noReplacementApplies (replacements st) (UseReducer.parsed (text st)) ->
  UseReducer.buildFinal st =
  if View.readsInherited (replacements st) (UseReducer.parsed (text st))
  then None else Some (UseReducer.parsed (text st)).
Proof.
  intros Hnone. rewrite UseReducer_buildFinal_spec.
  rewrite finalWordList_no_replacement;
    [reflexivity | apply UseReducer_parsed_clean | exact Hnone].
Qed.

(** X2. A missing or blank replacement entry keeps the word: when no entry
    applies to a parsed word, [buildFinal] of the [useState] component
    returns the parsed list itself.  So does the one of the reducer
    component, unless a parsed word is read under an inherited name, where
    it throws. *)
Theorem buildFinal_without_replacement (st : State) :
  (View.noReplacementApplies (replacements st) (UseState.parsed (text st)) ->
   UseState.buildFinal st = UseState.parsed (text st)) /\
  (View.noReplacementApplies (replacements st) (UseReducer.parsed (text st)) ->
   UseReducer.buildFinal st =
   if View.readsInherited (replacements st) (UseReducer.parsed (text st))
   then None else Some (UseReducer.parsed (text st))).
Proof.
  split; [apply UseState_buildFinal_plain | apply UseReducer_buildFinal_plain].
Qed.

Lemma buildFinal_without_replacement_witness :
  UseState.buildFinal
    (setReplacements {["apple" := "  "]}
                     (setText Sample.appleWords initialState)) =
  UseState.parsed Sample.appleWords.
Proof.
  destruct (buildFinal_without_replacement
              (setReplacements {["apple" := "  "]}
                               (setText Sample.appleWords initialState)))
    as [H _].
  apply H. intros w r _ Hr.
  cbn [replacements setReplacements] in Hr.
  destruct (decide (toLowerCase w = "apple")) as [E|E].
  - rewrite E, lookup_singleton_eq in Hr. injection Hr as <-. reflexivity.
  - rewrite lookup_singleton_ne in Hr by congruence. discriminate Hr.
Defined.

Lemma finalValid_plain words :
  Forall Spec.cleanToken words ->
  length words = 10 ->
  NoDup (Spec.wordKeys words) ->
  Spec.finalValid words.
Proof.
  intros Hclean Hlen Hnd. split; [exact Hlen|]. split; [|exact Hnd].
  eapply Forall_impl; [exact Hclean | apply clean_not_blank].
Qed.

Lemma lookups_empty_string_blank (repl : gmap string string) words :
  (forall k v, repl !! k = Some v -> v = "") ->
  View.noReplacementApplies repl words.
Proof. intros H w r _ Hr. apply H in Hr. now subst r. Qed.

(** The conflict editor of the [useState] component renders after a
    validation answer exactly when no reported key is an inherited name. *)
Lemma UseState_renders_after_conflicts (c : Conflicts) (s : State) :
  UseState.renders
    (setConflicts
       (Some (mkConflicts (map toLowerCase (db c)) (map toLowerCase (inBatch c))))
       (setReplacements (UseState.replacementsOfConflicts c) s)) = true <->
  Forall (fun k => toLowerCase k ∉ JsObject.prototypeNames)
         (db c ++ inBatch c).
Proof.
  unfold UseState.renders, UseState.conflictKeys.
  cbn [conflicts replacements setConflicts setReplacements db inBatch].
  rewrite <- map_app. rewrite forallb_forall, Forall_forall. split.
  - intros H k Hk Hin.
    specialize (H (toLowerCase k)).
    unfold JsObject.get in H.
    rewrite toLowerCase_idem, replacementsOfConflicts_lookup in H.
    rewrite decide_False in H by tauto.
    rewrite bool_decide_eq_true_2 in H by exact Hin.
    discriminate H. apply list_elem_of_In, list_elem_of_fmap. now exists k.
  - intros H k' Hk'.
    apply list_elem_of_In, list_elem_of_fmap in Hk' as [k [-> Hk]].
    unfold JsObject.get.
    rewrite toLowerCase_idem.
    destruct (UseState.replacementsOfConflicts c !! toLowerCase k);
      [reflexivity|].
    now rewrite bool_decide_eq_false_2 by now apply H.
Qed.

(** X3. Unresolved conflicts do not block the final check: in the state
    that [handleValidate] leaves when the server reports conflicts for ten
    distinct words the replacement entries are empty, so the final list is
    the parsed list and counts as valid.  In the [useState] component
    [isFinalValid()] is true, and Submit replacements is offered before
    anything is typed whenever the editor renders, which it does unless a
    reported key is an inherited name.  In the reducer component
    [isFinalValid()] is true and the button offered unless a parsed word is
    read under an inherited name; then [buildFinal] and [isFinalValid]
    throw and nothing is offered.  No parsed word is read so when no word
    key is a name of [Object.prototype]. *)
Theorem isFinalValid_right_after_conflicts
        (st : State) (env : Env) (res : ValidateData) (c : Conflicts) :
  (length (UseState.parsed (text st)) = 10 ->
   NoDup (Spec.wordKeys (UseState.parsed (text st))) ->
   postValidate env (UseState.parsed (text st)) = Ok res ->
   vConflicts res = Some c ->
   db c <> [] \/ inBatch c <> [] ->
   let st' := fst (UseState.handleValidate st env) in
   UseState.isFinalValid st' = true /\
   UseState.buildFinal st' = UseState.parsed (text st) /\
   (UseState.enabled st' (UseState.SubmitReplacements env) <->
    Forall (fun k => toLowerCase k ∉ JsObject.prototypeNames)
           (db c ++ inBatch c))) /\
  (length (UseReducer.parsed (text st)) = 10 ->
   NoDup (Spec.wordKeys (UseReducer.parsed (text st))) ->
   postValidate env (UseReducer.parsed (text st)) = Ok res ->
   ok res = false ->
   vConflicts res = Some c ->
   let st' := UseReducer.dispatchAll st
                (fst (UseReducer.handleValidate st env)) in
   let throws :=
     View.readsInherited (replacements st') (UseReducer.parsed (text st)) in
   UseReducer.isFinalValid st' = (if throws then None else Some true) /\
   UseReducer.buildFinal st' =
     (if throws then None else Some (UseReducer.parsed (text st))) /\
   (UseReducer.enabled st' (UseReducer.SubmitReplacements env) <->
    throws = false) /\
   (Forall (fun w => toLowerCase w ∉ JsObject.prototypeNames)
           (UseReducer.parsed (text st)) -> throws = false)).
Proof.
  split.
  - intros Hlen Hnd Hreply Hc Hne st'.
    assert (Nat.ltb 0 (length (db c)) || Nat.ltb 0 (length (inBatch c)) = true)
      as Hsome.
    { apply orb_true_iff. rewrite !ltb_length_nonempty. exact Hne. }
    assert (st' = setLoading false
                    (setMessage (Some UseState.validateConflictMessage)
                       (setConflicts
                          (Some (mkConflicts (map toLowerCase (db c))
                                             (map toLowerCase (inBatch c))))
                          (setReplacements (UseState.replacementsOfConflicts c)
                             (setLoading true
                                (setConflicts None (setMessage None st)))))))
      as Hst.
    { subst st'. unfold UseState.handleValidate. cbv zeta. rewrite Hlen.
      change (negb (Nat.eqb 10 10)) with false. cbv iota.
      rewrite (no_local_duplicates _ Hnd).
      change (Nat.ltb 0 (length (@nil string))) with false. cbv iota.
      rewrite Hreply, Hc.
      change (default (mkConflicts [] []) (Some c)) with c.
      rewrite Hsome. reflexivity. }
    assert (View.noReplacementApplies (replacements st')
                                      (UseState.parsed (text st'))) as Hnone.
    { apply lookups_empty_string_blank. intros k v. rewrite Hst.
      cbn [replacements setLoading setMessage setConflicts setReplacements].
      rewrite replacementsOfConflicts_lookup.
      destruct (decide _); [now intros [= <-] | discriminate]. }
    assert (text st' = text st) as Htext by (rewrite Hst; reflexivity).
    assert (UseState.buildFinal st' = UseState.parsed (text st)) as Hfinal.
    { rewrite <- Htext. now apply UseState_buildFinal_plain. }
    assert (UseState.isFinalValid st' = true) as Hvalid.
    { apply UseState_isFinalValid_spec.
      rewrite <- UseState_buildFinal_spec, Hfinal.
      apply finalValid_plain; [apply UseState_parsed_clean | exact Hlen | exact Hnd]. }
    split; [exact Hvalid|]. split; [exact Hfinal|].
    rewrite <- (UseState_renders_after_conflicts c
                  (setLoading true (setConflicts None (setMessage None st)))).
    assert (UseState.renders st' =
            UseState.renders
              (setConflicts
                 (Some (mkConflicts (map toLowerCase (db c))
                                    (map toLowerCase (inBatch c))))
                 (setReplacements (UseState.replacementsOfConflicts c)
                    (setLoading true
                       (setConflicts None (setMessage None st))))))
      as <- by (rewrite Hst; reflexivity).
    split; [now intros [Hr _]|]. intros Hr. split; [exact Hr|].
    split; [rewrite Hst; discriminate|]. split; [exact Hvalid|].
    rewrite Hst. reflexivity.
  - intros Hlen Hnd Hreply Hok Hc st' throws.
    destruct (UseReducer_handleValidate_conflicts_as_received
                st env res c Hlen Hreply Hok Hc) as [Hconf Hrep].
    fold st' in Hconf, Hrep.
    assert (text st' = text st /\ loading st' = false) as [Htext Hload].
    { subst st'. unfold UseReducer.handleValidate. cbv zeta. rewrite Hlen.
      change (negb (Nat.eqb 10 10)) with false. cbv iota.
      rewrite Hreply, Hok, Hc. split; reflexivity. }
    assert (View.noReplacementApplies (replacements st')
                                      (UseReducer.parsed (text st'))) as Hnone.
    { apply lookups_empty_string_blank. intros k v. rewrite Hrep.
      destruct (decide _); [now intros [= <-] | discriminate]. }
    assert (UseReducer.buildFinal st' =
            if throws then None else Some (UseReducer.parsed (text st)))
      as Hfinal.
    { subst throws. rewrite <- Htext. now apply UseReducer_buildFinal_plain. }
    assert (UseReducer.isFinalValid st' = if throws then None else Some true)
      as Hvalid.
    { unfold UseReducer.isFinalValid. rewrite Hfinal.
      destruct throws; [reflexivity|]. rewrite Hlen. cbn [Nat.eqb negb].
      f_equal. apply Nat.eqb_eq.
      apply setSize_NoDup in Hnd. unfold Spec.wordKeys in Hnd.
      now rewrite Hnd, length_map. }
    split; [exact Hvalid|]. split; [exact Hfinal|]. split.
    + unfold UseReducer.enabled, UseReducer.renders.
      rewrite Hconf, Hvalid, Hload. destruct throws.
      * split; [now intros [? _] | discriminate].
      * split; [reflexivity|]. intros _. repeat split. discriminate.
    + apply readsInherited_false.
Qed.

Lemma isFinalValid_right_after_conflicts_witness :
  UseState.isFinalValid
    (fst (UseState.handleValidate (setText Sample.appleWords initialState)
                                  Sample.appleTaken)) = true.
Proof.
  destruct (isFinalValid_right_after_conflicts
              (setText Sample.appleWords initialState) Sample.appleTaken
              (mkValidateData false (Some (mkConflicts ["apple"] [])))
              (mkConflicts ["apple"] [])) as [H _].
  destruct H as [Hvalid _].
  - vm_compute. reflexivity.
  - apply (bool_decide_unpack _). vm_compute. exact I.
  - reflexivity.
  - reflexivity.
  - left. discriminate.
  - exact Hvalid.
Defined.

Lemma finalWord_insert repl k v w :
  Spec.finalWord (<[k := v]> repl) w =
  if decide (toLowerCase w = k)
  then (if decide (Spec.blank v) then trim w else trim v)
  else Spec.finalWord repl w.
Proof.
  unfold Spec.finalWord. destruct (decide (toLowerCase w = k)) as [E|E].
  - now rewrite E, lookup_insert_eq.
  - now rewrite lookup_insert_ne by congruence.
Qed.

Lemma readsInherited_insert_capital (repl : gmap string string) key v words :
  toLowerCase key <> key ->
  View.readsInherited (<[key := v]> repl) words =
  View.readsInherited repl words.
Proof.
  intros Hcap. unfold View.readsInherited.
  induction words as [|w words IH]; [reflexivity|].
  cbn [existsb]. rewrite IH. f_equal. unfold JsObject.get.
  rewrite lookup_insert_ne; [reflexivity|].
  intros E. apply Hcap. rewrite E. apply toLowerCase_idem.
Qed.

(** X4. What typing into a replacement field does to the final list. In
    the [useState] component the field of conflict key [key] rewrites
    exactly the parsed words whose lowercase form is the lowercase of
    [key]: they become the trimmed input, or stay the original words while
    the input is blank; every other final word is as before. In the reducer
    component the field writes under the key as the server sent it, while
    [buildFinal] reads under lowercase keys: where [buildFinal] returns,
    the same holds for a lowercase key; it throws when, with the new entry,
    a parsed word is still read under an inherited name; and for a key with
    a capital the outcome of [buildFinal] does not change. *)
Theorem replacement_edit_effect (st : State) (key v : string) :
  UseState.buildFinal (UseState.onChangeReplacement key v st) =
    map (fun w =>
           if decide (toLowerCase w = toLowerCase key)
           then (if decide (Spec.blank v) then w else trim v)
           else Spec.finalWord (replacements st) w)
        (UseState.parsed (text st)) /\
  UseReducer.buildFinal
    (UseReducer.reducer st (UseReducer.onChangeReplacement key v st)) =
    (if View.readsInherited (<[key := v]> (replacements st))
                            (UseReducer.parsed (text st))
     then None
     else Some (map (fun w =>
                       if decide (toLowerCase w = key)
                       then (if decide (Spec.blank v) then w else trim v)
                       else Spec.finalWord (replacements st) w)
                    (UseReducer.parsed (text st)))) /\
  (toLowerCase key <> key ->
   UseReducer.buildFinal
     (UseReducer.reducer st (UseReducer.onChangeReplacement key v st)) =
   UseReducer.buildFinal st).
Proof.
  assert (forall words k,
             Forall Spec.cleanToken words ->
             Spec.finalWordList words (<[k := v]> (replacements st)) =
             map (fun w =>
                    if decide (toLowerCase w = k)
                    then (if decide (Spec.blank v) then w else trim v)
                    else Spec.finalWord (replacements st) w) words) as Hedit.
  { intros words k Hclean. unfold Spec.finalWordList.
    apply map_ext_in. intros w Hin. rewrite finalWord_insert.
    rewrite Forall_forall in Hclean.
    destruct (Hclean w (proj2 (list_elem_of_In _ _) Hin)) as [_ Htrim].
    now rewrite Htrim. }
  split; [|split].
  - rewrite UseState_buildFinal_spec. apply Hedit, UseState_parsed_clean.
  - rewrite UseReducer_buildFinal_spec.
    cbn [text replacements UseReducer.reducer UseReducer.onChangeReplacement
         setReplacements].
    now rewrite (Hedit _ key (UseReducer_parsed_clean (text st))).
  - intros Hcap. rewrite !UseReducer_buildFinal_spec.
    cbn [text replacements UseReducer.reducer UseReducer.onChangeReplacement
         setReplacements].
    rewrite (readsInherited_insert_capital _ _ _ _ Hcap).
    rewrite (Hedit _ key (UseReducer_parsed_clean (text st))).
    destruct (View.readsInherited _ _); [reflexivity|]. f_equal.
    unfold Spec.finalWordList. apply map_ext. intros w.
    rewrite decide_False; [reflexivity|].
    intros E. apply Hcap. rewrite <- E. apply toLowerCase_idem.
Qed.

End ReplacementFacts.

(** ** The maps built from the parsed words *)

Section MapFacts.

Import Js.

Lemma mapGetA_mapSetA_eq {A} k (v : A) m : mapGetA k (mapSetA k v m) = Some v.
Proof.
  induction m as [|[k' v'] m IH]; cbn [mapGetA mapSetA].
  - now rewrite decide_True.
  - destruct (decide (k' = k)) as [E|E]; cbn [mapGetA].
    + now rewrite decide_True.
    + now rewrite decide_False.
Qed.

Lemma mapGetA_mapSetA_ne {A} k k' (v : A) m :
  k' <> k -> mapGetA k (mapSetA k' v m) = mapGetA k m.
Proof.
  intros Hne. induction m as [|[k0 v0] m IH]; cbn [mapGetA mapSetA].
  - now rewrite decide_False.
  - destruct (decide (k0 = k')) as [E|E]; cbn [mapGetA].
    + subst k0. now rewrite !decide_False.
    + destruct (decide (k0 = k)); [reflexivity | exact IH].
Qed.

Lemma mapSetA_keys {A} k (v : A) m :
  map fst (mapSetA k v m) =
  if decide (k ∈ map fst m) then map fst m else map fst m ++ [k].
Proof.
  induction m as [|[k' v'] m IH]; cbn [mapSetA map fst].
  - rewrite decide_False; [reflexivity | intros H; inversion H].
  - destruct (decide (k' = k)) as [E|E]; cbn [map fst].
    + subst k'. rewrite decide_True; [reflexivity | left].
    + rewrite IH. destruct (decide (k ∈ map fst m)) as [Hin|Hnin].
      * rewrite decide_True; [reflexivity | now right].
      * rewrite decide_False; [reflexivity|].
        intros Hin. apply elem_of_cons in Hin as [?|?]; congruence.
Qed.

Lemma filter_all (P : string -> Prop) `{!forall x, Decision (P x)}
      (l : list string) :
  (forall x, P x) -> filter P l = l.
Proof.
  intros HP. induction l as [|x l IH]; [reflexivity|].
  rewrite filter_cons_True by apply HP. now rewrite IH.
Qed.

(** A map filled key by key lists its keys in the order of their first
    occurrence. *)
Lemma fold_keys_first_occurrence {A}
      (step : list (string * A) -> string -> list (string * A))
      (key : string -> string) :
  (forall m w, map fst (step m w) =
               if decide (key w ∈ map fst m) then map fst m
               else map fst m ++ [key w]) ->
  forall words m,
    map fst (fold_left step words m) =
    map fst m ++ filter (fun k => k ∉ map fst m)
                        (View.distinctInOrder (map key words)).
Proof.
  intros Hstep. induction words as [|w words IH]; intros m.
  - cbn. now rewrite app_nil_r.
  - cbn [fold_left map View.distinctInOrder]. rewrite IH, Hstep.
    destruct (decide (key w ∈ map fst m)) as [Hin|Hnin].
    + rewrite filter_cons_False by (intros H; now apply H).
      f_equal. symmetry. apply list_filter_filter_l.
      intros x Hx E. subst x. now apply Hx.
    + rewrite filter_cons_True by exact Hnin.
      rewrite <- app_assoc. cbn [app]. do 2 f_equal.
      rewrite list_filter_filter. apply list_filter_iff. intros x.
      rewrite elem_of_app, list_elem_of_singleton. tauto.
Qed.

Lemma countKeys_keys words :
  map fst (UseState.countKeys words) =
  View.distinctInOrder (Spec.wordKeys words).
Proof.
  unfold UseState.countKeys.
  rewrite (fold_keys_first_occurrence UseState.countStep toLowerCase).
  - cbn [map app]. apply filter_all. intros x H. inversion H.
  - intros m w. unfold UseState.countStep. apply mapSet_keys.
Qed.

Lemma occurrenceMap_keys words :
  map fst (UseState.occurrenceMap words) =
  View.distinctInOrder (Spec.wordKeys words).
Proof.
  unfold UseState.occurrenceMap.
  rewrite (fold_keys_first_occurrence UseState.occurrenceStep toLowerCase).
  - cbn [map app]. apply filter_all. intros x H. inversion H.
  - intros m w. unfold UseState.occurrenceStep. apply mapSetA_keys.
Qed.

Lemma filter_by_count (m : list (string * nat)) (f : string -> nat) :
  (forall k v, (k, v) ∈ m -> v = f k) ->
  map fst (List.filter (fun kc => Nat.ltb 1 (snd kc)) m) =
  filter (fun k => 1 < f k) (map fst m).
Proof.
  induction m as [|[k v] m IH]; intros Hm; [reflexivity|].
  cbn [List.filter map fst snd].
  assert (v = f k) as -> by (apply Hm; left).
  specialize (IH (fun k' v' Hin => Hm k' v' (list_elem_of_further _ _ _ Hin))).
  destruct (Nat.ltb_spec 1 (f k)) as [Hlt|Hge].
  - rewrite filter_cons_True by exact Hlt. cbn [map fst]. now rewrite IH.
  - rewrite filter_cons_False by lia. exact IH.
Qed.

(** X5. [inBatchDupKeys] is exactly the distinct lowercase keys of the
    parsed words, taken in the order of their first occurrence, that occur
    more than once; it is empty exactly when the keys are pairwise
    distinct. *)
Theorem inBatchDupKeys_exact (words : list string) :
  UseState.inBatchDupKeys words =
    filter (fun k => 1 < Spec.multiplicity k (Spec.wordKeys words))
           (View.distinctInOrder (Spec.wordKeys words)) /\
  (UseState.inBatchDupKeys words = [] <-> NoDup (Spec.wordKeys words)).
Proof.
  split.
  - unfold UseState.inBatchDupKeys.
    rewrite (filter_by_count _
               (fun k => Spec.multiplicity k (Spec.wordKeys words))).
    + now rewrite countKeys_keys.
    + intros k v Hin.
      apply (mapGet_elem k v _ (countKeys_NoDup words)) in Hin.
      rewrite <- countKeys_countOf. unfold Spec.countOf. now rewrite Hin.
  - split; [|apply no_local_duplicates].
    intros Hnil. apply NoDup_multiplicity. intros k.
    destruct (le_lt_dec (Spec.multiplicity k (Spec.wordKeys words)) 1)
      as [Hle|Hlt]; [exact Hle|].
    apply elem_of_inBatchDupKeys in Hlt. rewrite Hnil in Hlt. inversion Hlt.
Qed.

Lemma occurrences_cons k w words :
  View.occurrences k (w :: words) =
  if decide (toLowerCase w = k) then w :: View.occurrences k words
  else View.occurrences k words.
Proof.
  unfold View.occurrences. destruct (decide (toLowerCase w = k)) as [E|E].
  - now rewrite filter_cons_True.
  - now rewrite filter_cons_False.
Qed.

Lemma occurrenceMap_fold_get words : forall m k,
  mapGetA k (fold_left UseState.occurrenceStep words m) =
  match View.occurrences k words with
  | [] => mapGetA k m
  | occ => Some (default [] (mapGetA k m) ++ occ)
  end.
Proof.
  induction words as [|w words IH]; intros m k; [reflexivity|].
  cbn [fold_left]. rewrite IH, occurrences_cons.
  unfold UseState.occurrenceStep.
  destruct (decide (toLowerCase w = k)) as [E|E].
  - subst k. rewrite mapGetA_mapSetA_eq.
    destruct (View.occurrences (toLowerCase w) words) as [|o occ].
    + reflexivity.
    + cbn [default from_option id]. now rewrite <- app_assoc.
  - now rewrite mapGetA_mapSetA_ne by exact E.
Qed.

Lemma occurrences_length k words :
  length (View.occurrences k words) =
  Spec.multiplicity k (Spec.wordKeys words).
Proof.
  induction words as [|w words IH]; [reflexivity|].
  rewrite occurrences_cons. unfold Spec.wordKeys in *. cbn [map].
  rewrite multiplicity_cons.
  destruct (decide (toLowerCase w = k)); cbn [length]; lia.
Qed.

(** X6. [occurrenceMap] lists each lowercase key of the parsed words once,
    in the order of first occurrence, and holds under a key exactly the
    parsed words written with it, in the order of the text; a key has more
    than one word there exactly when it is one of [inBatchDupKeys]. *)
Theorem occurrenceMap_entries (words : list string) :
  map fst (UseState.occurrenceMap words) =
    View.distinctInOrder (Spec.wordKeys words) /\
  (forall k, mapGetA k (UseState.occurrenceMap words) =
             if decide (k ∈ Spec.wordKeys words)
             then Some (View.occurrences k words) else None) /\
  (forall k originals,
      mapGetA k (UseState.occurrenceMap words) = Some originals ->
      (1 < length originals <-> k ∈ UseState.inBatchDupKeys words)).
Proof.
  assert (forall k, mapGetA k (UseState.occurrenceMap words) =
                    if decide (k ∈ Spec.wordKeys words)
                    then Some (View.occurrences k words) else None) as Hget.
  { intros k. unfold UseState.occurrenceMap.
    rewrite occurrenceMap_fold_get. cbn [mapGetA].
    pose proof (occurrences_length k words) as Hlen.
    pose proof (multiplicity_pos k (Spec.wordKeys words)) as Hpos.
    destruct (View.occurrences k words) as [|o occ] eqn:E; cbn [length] in Hlen.
    - rewrite decide_False; [reflexivity|].
      intros Hin. apply Hpos in Hin. lia.
    - rewrite decide_True; [reflexivity|]. apply Hpos. lia. }
  split; [apply occurrenceMap_keys|]. split; [exact Hget|].
  intros k originals Hk. rewrite Hget in Hk.
  destruct (decide (k ∈ Spec.wordKeys words)); [|discriminate].
  injection Hk as <-.
  now rewrite occurrences_length, elem_of_inBatchDupKeys.
Qed.

End MapFacts.

(** ** What the handlers send and what they leave behind *)

Section HandlerFacts.

Import Js.

Lemma eqb_10_false n : n <> 10 -> negb (Nat.eqb n 10) = true.
Proof. intros H. now apply negb_true_iff, Nat.eqb_neq. Qed.

(** X7. With any number of parsed words other than ten, [handleValidate]
    sends nothing: it clears the conflict set, reports the count in the
    message, and leaves text, replacements and the loading flag as they
    were. In both components. *)
Theorem handleValidate_wrong_count (st : State) (env : Env) :
  (length (UseState.parsed (text st)) <> 10 ->
   UseState.handleValidate st env =
     (mkState (text st) None (replacements st)
              (Some (countMessage (length (UseState.parsed (text st)))))
              (loading st) (savedWords st) (savedLoading st) (savedError st),
      [])) /\
  (length (UseReducer.parsed (text st)) <> 10 ->
   UseReducer.dispatchAll st (fst (UseReducer.handleValidate st env)) =
     mkState (text st) None (replacements st)
             (Some (countMessage (length (UseReducer.parsed (text st)))))
             (loading st) (savedWords st) (savedLoading st) (savedError st) /\
   snd (UseReducer.handleValidate st env) = []).
Proof.
  split; intros Hlen.
  - unfold UseState.handleValidate. cbv zeta.
    now rewrite (eqb_10_false _ Hlen).
  - unfold UseReducer.handleValidate. cbv zeta.
    rewrite (eqb_10_false _ Hlen). split; reflexivity.
Qed.

Lemma handleValidate_wrong_count_witness :
  message (fst (UseState.handleValidate (setText "one, two" initialState)
                                        Sample.offline)) =
  Some "Please enter exactly 10 words. You entered 2.".
Proof.
  destruct (handleValidate_wrong_count (setText "one, two" initialState)
                                       Sample.offline) as [H _].
  rewrite H; [vm_compute; reflexivity | vm_compute; discriminate].
Defined.

Lemma UseState_submitFinal_ok s finalWords env :
  postWords env finalWords = Ok tt ->
  View.hookFulfilled env ->
  UseState.submitFinal s finalWords env =
    (mkState "" None ∅ (Some UseState.successMessage) false
             (match getWords env with
              | Ok data => UseState.savedOf (UseState.docsOf data)
              | Failed _ => savedWords s
              end)
             (savedLoading s) (savedError s),
     [PostWords finalWords; GetWords]).
Proof.
  intros Hpost Hhook. unfold UseState.submitFinal. cbv zeta. rewrite Hpost.
  destruct (onAdded env) as [[[]|err]|] eqn:E.
  - destruct (getWords env); reflexivity.
  - now contradiction (Hhook err).
  - destruct (getWords env); reflexivity.
Qed.

Lemma UseReducer_submitFinal_ok store state finalWords env :
  postWords env finalWords = Ok tt ->
  View.hookFulfilled env ->
  UseReducer.dispatchAll store
    (fst (UseReducer.submitFinal state finalWords env)) =
    mkState "" None ∅ (Some UseReducer.successMessage) false
            (savedWords store) (savedLoading store) (savedError store) /\
  snd (UseReducer.submitFinal state finalWords env) = [PostWords finalWords].
Proof.
  intros Hpost Hhook. unfold UseReducer.submitFinal. cbv zeta. rewrite Hpost.
  destruct (onAdded env) as [[[]|err]|] eqn:E.
  - split; reflexivity.
  - now contradiction (Hhook err).
  - split; reflexivity.
Qed.

(** The reducer's [handleValidate] on an answer it takes for a clean one:
    the submit of [buildFinal()], or the [catch] when [buildFinal] throws. *)
Lemma UseReducer_handleValidate_clean st env res :
  length (UseReducer.parsed (text st)) = 10 ->
  postValidate env (UseReducer.parsed (text st)) = Ok res ->
  ok res = true \/ vConflicts res = None ->
  UseReducer.handleValidate st env =
  match UseReducer.buildFinal st with
  | Some final =>
      ([UseReducer.SET_MESSAGE None; UseReducer.SET_CONFLICTS None;
        UseReducer.SET_LOADING true]
         ++ fst (UseReducer.submitFinal st final env)
         ++ [UseReducer.SET_LOADING false],
       PostValidate (UseReducer.parsed (text st))
         :: snd (UseReducer.submitFinal st final env))
  | None =>
      ([UseReducer.SET_MESSAGE None; UseReducer.SET_CONFLICTS None;
        UseReducer.SET_LOADING true;
        UseReducer.SET_MESSAGE (Some "Validation failed");
        UseReducer.SET_LOADING false],
       [PostValidate (UseReducer.parsed (text st))])
  end.
Proof.
  intros Hlen Hreply Hok.
  unfold UseReducer.handleValidate. cbv zeta. rewrite Hlen.
  change (negb (Nat.eqb 10 10)) with false. cbv iota. rewrite Hreply.
  assert (match UseReducer.buildFinal st with
          | Some final =>
              let '(acts, reqs) := UseReducer.submitFinal st final env in
              (([UseReducer.SET_MESSAGE None; UseReducer.SET_CONFLICTS None]
                  ++ [UseReducer.SET_LOADING true])
                 ++ acts ++ [UseReducer.SET_LOADING false],
               PostValidate (UseReducer.parsed (text st)) :: reqs)
          | None =>
              (([UseReducer.SET_MESSAGE None; UseReducer.SET_CONFLICTS None]
                  ++ [UseReducer.SET_LOADING true])
                 ++ [UseReducer.SET_MESSAGE
                       (Some (UseReducer.errorMessage Thrown
                                                      "Validation failed"))]
                 ++ [UseReducer.SET_LOADING false],
               [PostValidate (UseReducer.parsed (text st))])
          end =
          match UseReducer.buildFinal st with
          | Some final =>
              ([UseReducer.SET_MESSAGE None; UseReducer.SET_CONFLICTS None;
                UseReducer.SET_LOADING true]
                 ++ fst (UseReducer.submitFinal st final env)
                 ++ [UseReducer.SET_LOADING false],
               PostValidate (UseReducer.parsed (text st))
                 :: snd (UseReducer.submitFinal st final env))
          | None =>
              ([UseReducer.SET_MESSAGE None; UseReducer.SET_CONFLICTS None;
                UseReducer.SET_LOADING true;
                UseReducer.SET_MESSAGE (Some "Validation failed");
                UseReducer.SET_LOADING false],
               [PostValidate (UseReducer.parsed (text st))])
          end) as Hgo.
  { destruct (UseReducer.buildFinal st) as [final|]; [|reflexivity].
    now destruct (UseReducer.submitFinal st final env). }
  destruct Hok as [Hok|Hnone].
  - rewrite Hok. exact Hgo.
  - rewrite Hnone. destruct (ok res); exact Hgo.
Qed.

(** X8. Validation that finds nothing goes on to submit without a second
    click. The list validated is the parsed list; the list posted to
    [/words] is [buildFinal()] of the clicked render, replacements
    included. When the post succeeds the form is emptied, the conflict
    state cleared and the success message shown. The [useState] component
    decides by the returned lists alone (both empty, whatever [ok] says)
    and then refreshes the saved-words mirror, keeping the old mirror when
    the refresh fails; the reducer component decides by [ok] or a missing
    [conflicts] and sends no third request.  When the [buildFinal] of the
    reducer component throws, nothing is posted: the form stays, without
    conflict set, under the validation-failed message. *)
Theorem handleValidate_then_submit (st : State) (env : Env)
        (res : ValidateData) :
  (length (UseState.parsed (text st)) = 10 ->
   NoDup (Spec.wordKeys (UseState.parsed (text st))) ->
   postValidate env (UseState.parsed (text st)) = Ok res ->
   db (default (mkConflicts [] []) (vConflicts res)) = [] ->
   inBatch (default (mkConflicts [] []) (vConflicts res)) = [] ->
   postWords env (UseState.buildFinal st) = Ok tt ->
   View.hookFulfilled env ->
   UseState.handleValidate st env =
     (mkState "" None ∅ (Some UseState.successMessage) false
              (match getWords env with
               | Ok data => UseState.savedOf (UseState.docsOf data)
               | Failed _ => savedWords st
               end)
              (savedLoading st) (savedError st),
      [PostValidate (UseState.parsed (text st));
       PostWords (UseState.buildFinal st); GetWords])) /\
  (length (UseReducer.parsed (text st)) = 10 ->
   postValidate env (UseReducer.parsed (text st)) = Ok res ->
   ok res = true \/ vConflicts res = None ->
   (forall final,
       UseReducer.buildFinal st = Some final ->
       postWords env final = Ok tt ->
       View.hookFulfilled env ->
       UseReducer.dispatchAll st (fst (UseReducer.handleValidate st env)) =
         mkState "" None ∅ (Some UseReducer.successMessage) false
                 (savedWords st) (savedLoading st) (savedError st) /\
       snd (UseReducer.handleValidate st env) =
         [PostValidate (UseReducer.parsed (text st)); PostWords final]) /\
   (UseReducer.buildFinal st = None ->
    UseReducer.dispatchAll st (fst (UseReducer.handleValidate st env)) =
      mkState (text st) None (replacements st) (Some "Validation failed")
              false (savedWords st) (savedLoading st) (savedError st) /\
    snd (UseReducer.handleValidate st env) =
      [PostValidate (UseReducer.parsed (text st))])).
Proof.
  split.
  - intros Hlen Hnd Hreply Hdb Hbatch Hpost Hhook.
    unfold UseState.handleValidate. cbv zeta. rewrite Hlen.
    change (negb (Nat.eqb 10 10)) with false. cbv iota.
    rewrite (no_local_duplicates _ Hnd).
    change (Nat.ltb 0 (length (@nil string))) with false. cbv iota.
    rewrite Hreply, Hdb, Hbatch.
    change (Nat.ltb 0 (length (@nil string)) ||
            Nat.ltb 0 (length (@nil string))) with false. cbv iota.
    rewrite (UseState_submitFinal_ok _ _ _ Hpost Hhook). reflexivity.
  - intros Hlen Hreply Hok.
    rewrite (UseReducer_handleValidate_clean st env res Hlen Hreply Hok).
    split.
    + intros final -> Hpost Hhook.
      destruct (UseReducer_submitFinal_ok
                  (UseReducer.dispatchAll st
                     [UseReducer.SET_MESSAGE None; UseReducer.SET_CONFLICTS None;
                      UseReducer.SET_LOADING true])
                  st _ env Hpost Hhook) as [Hstate Hreqs].
      cbn [fst snd]. rewrite Hreqs. split; [|reflexivity].
      rewrite dispatchAll_app, dispatchAll_app, Hstate. reflexivity.
    + intros ->. split; reflexivity.
Qed.

Lemma handleValidate_then_submit_witness :
  UseState.handleValidate (setText Sample.tenWords initialState)
                          Sample.allFine =
  (mkState "" None ∅ (Some UseState.successMessage) false
           [mkSaved "Lion" " lion "; mkSaved "Tiger" "tiger"] false None,
   [PostValidate (UseState.parsed Sample.tenWords);
    PostWords (UseState.parsed Sample.tenWords); GetWords]).
Proof.
  destruct (handleValidate_then_submit
              (setText Sample.tenWords initialState) Sample.allFine
              (mkValidateData true None)) as [H _].
  rewrite H.
  - vm_compute. reflexivity.
  - vm_compute. reflexivity.
  - apply (bool_decide_unpack _). vm_compute. exact I.
  - reflexivity.
  - reflexivity.
  - reflexivity.
  - reflexivity.
  - intros err. discriminate.
Defined.

Lemma UseState_submitFinal_requests s finalWords env :
  snd (UseState.submitFinal s finalWords env) = [PostWords finalWords] \/
  snd (UseState.submitFinal s finalWords env) = [PostWords finalWords; GetWords].
Proof.
  unfold UseState.submitFinal. cbv zeta.
  destruct (postWords env finalWords) as [[]|err]; [|now left].
  destruct (onAdded env) as [[[]|err]|]; [now right | now left | now right].
Qed.

(** X9. [handleSubmitReplacements] never posts a list that fails the final
    check: a list it sends to [/words] is [buildFinal()], with exactly ten
    entries, none blank, pairwise distinct in lowercase. When the check
    fails it sends nothing and only sets the message. *)
Theorem handleSubmitReplacements_posts_valid (st : State) (env : Env) :
  (forall ws, PostWords ws ∈ snd (UseState.handleSubmitReplacements st env) ->
              ws = UseState.buildFinal st /\ Spec.finalValid ws) /\
  (forall ws, PostValidate ws ∉ snd (UseState.handleSubmitReplacements st env)) /\
  (UseState.isFinalValid st = false ->
   UseState.handleSubmitReplacements st env =
     (setMessage (Some UseState.finalInvalidMessage) st, [])).
Proof.
  unfold UseState.handleSubmitReplacements.
  destruct (UseState.isFinalValid st) eqn:Hvalid; cbn [negb].
  - pose proof (UseState_submitFinal_requests st (UseState.buildFinal st) env)
      as Hreqs.
    split; [|split; [|discriminate]].
    + intros ws Hin.
      assert (ws = UseState.buildFinal st) as ->.
      { destruct Hreqs as [E|E]; rewrite E in Hin.
        - apply list_elem_of_singleton in Hin. congruence.
        - apply elem_of_cons in Hin as [Hin|Hin]; [congruence|].
          apply list_elem_of_singleton in Hin. discriminate. }
      split; [reflexivity|]. rewrite UseState_buildFinal_spec.
      now apply UseState_isFinalValid_spec.
    + intros ws Hin. destruct Hreqs as [E|E]; rewrite E in Hin.
      * apply list_elem_of_singleton in Hin. discriminate.
      * apply elem_of_cons in Hin as [Hin|Hin]; [discriminate|].
        apply list_elem_of_singleton in Hin. discriminate.
  - split; [|split; [|reflexivity]]; intros ws Hin; inversion Hin.
Qed.

Lemma handleSubmitReplacements_posts_valid_witness :
  UseState.handleSubmitReplacements
    (setText Sample.catWords initialState) Sample.allFine =
  (setMessage (Some UseState.finalInvalidMessage)
              (setText Sample.catWords initialState), []).
Proof.
  destruct (handleSubmitReplacements_posts_valid
              (setText Sample.catWords initialState) Sample.allFine)
    as (_ & _ & H).
  apply H. vm_compute. reflexivity.
Defined.

Lemma UseState_submitFinal_text s finalWords env :
  text (fst (UseState.submitFinal s finalWords env)) = text s \/
  (text (fst (UseState.submitFinal s finalWords env)) = "" /\
   postWords env finalWords = Ok tt).
Proof.
  unfold UseState.submitFinal. cbv zeta.
  destruct (postWords env finalWords) as [[]|err] eqn:Hpost.
  - right. split; [|reflexivity].
    destruct (onAdded env) as [[[]|err]|].
    + destruct (getWords env); reflexivity.
    + unfold UseState.submitCatch.
      destruct (UseState.conflictResponse err); reflexivity.
    + destruct (getWords env); reflexivity.
  - left. unfold UseState.submitCatch.
    destruct (UseState.conflictResponse err); reflexivity.
Qed.

Lemma UseReducer_submitFinal_text store state finalWords env :
  text store = text state ->
  let st' := UseReducer.dispatchAll store
               (fst (UseReducer.submitFinal state finalWords env)) in
  text st' = text state \/
  (text st' = "" /\ postWords env finalWords = Ok tt).
Proof.
  intros Hstore st'. subst st'. unfold UseReducer.submitFinal. cbv zeta.
  destruct (postWords env finalWords) as [[]|err] eqn:Hpost.
  - destruct (onAdded env) as [[[]|err]|].
    + right. split; reflexivity.
    + left. reflexivity.
    + right. split; reflexivity.
  - left. reflexivity.
Qed.

(** X10. The typed text is never lost to a failure: after [handleValidate]
    or a submit of replacements the text is what it was, unless the post to
    [/words] was answered with success, and then it is empty. In both
    components. *)
Theorem text_kept_unless_stored (st : State) (env : Env) :
  (text (fst (UseState.handleValidate st env)) = text st \/
   (text (fst (UseState.handleValidate st env)) = "" /\
    postWords env (UseState.buildFinal st) = Ok tt)) /\
  (text (fst (UseState.handleSubmitReplacements st env)) = text st \/
   (text (fst (UseState.handleSubmitReplacements st env)) = "" /\
    postWords env (UseState.buildFinal st) = Ok tt)) /\
  (text (UseReducer.dispatchAll st (fst (UseReducer.handleValidate st env)))
   = text st \/
   (text (UseReducer.dispatchAll st (fst (UseReducer.handleValidate st env)))
    = "" /\
    exists final, UseReducer.buildFinal st = Some final /\
                  postWords env final = Ok tt)) /\
  (text (UseReducer.dispatchAll st
           (fst (UseReducer.onSubmitReplacements st env)))
   = text st \/
   (text (UseReducer.dispatchAll st
            (fst (UseReducer.onSubmitReplacements st env)))
    = "" /\
    exists final, UseReducer.buildFinal st = Some final /\
                  postWords env final = Ok tt)).
Proof.
  split; [|split; [|split]].
  - unfold UseState.handleValidate. cbv zeta.
    destruct (negb (Nat.eqb (length (UseState.parsed (text st))) 10));
      [now left|].
    destruct (Nat.ltb 0 (length (UseState.inBatchDupKeys
                                   (UseState.parsed (text st)))));
      [now left|].
    destruct (postValidate env (UseState.parsed (text st))) as [res|err];
      [|now left].
    destruct (Nat.ltb 0 (length (db (default (mkConflicts [] [])
                                             (vConflicts res))))
              || Nat.ltb 0 (length (inBatch (default (mkConflicts [] [])
                                                     (vConflicts res)))));
      [now left|].
    pose proof (UseState_submitFinal_text
                  (setLoading true (setConflicts None (setMessage None st)))
                  (UseState.buildFinal st) env) as Htext.
    destruct (UseState.submitFinal
                (setLoading true (setConflicts None (setMessage None st)))
                (UseState.buildFinal st) env) as [s1 reqs].
    exact Htext.
  - unfold UseState.handleSubmitReplacements.
    destruct (negb (UseState.isFinalValid st)); [now left|].
    apply UseState_submitFinal_text.
  - unfold UseReducer.handleValidate. cbv zeta.
    destruct (negb (Nat.eqb (length (UseReducer.parsed (text st))) 10));
      [now left|].
    destruct (postValidate env (UseReducer.parsed (text st))) as [res|err];
      [|now left].
    destruct (ok res), (vConflicts res) as [c|]; try (now left);
      (destruct (UseReducer.buildFinal st) as [final|]; [|now left]);
      pose proof (UseReducer_submitFinal_text
                    (UseReducer.dispatchAll st
                       [UseReducer.SET_MESSAGE None;
                        UseReducer.SET_CONFLICTS None;
                        UseReducer.SET_LOADING true])
                    st final env eq_refl) as Htext;
      cbv zeta in Htext;
      destruct (UseReducer.submitFinal st final env) as [acts reqs];
      cbn [fst] in *; rewrite !dispatchAll_app;
      (destruct Htext as [Htext|[Htext Hpost]];
       [left; exact Htext | right; split; [exact Htext | now exists final]]).
  - unfold UseReducer.onSubmitReplacements.
    destruct (UseReducer.buildFinal st) as [final|]; [|now left].
    destruct (UseReducer_submitFinal_text st st final env eq_refl)
      as [Htext|[Htext Hpost]];
      [left; exact Htext | right; split; [exact Htext | now exists final]].
Qed.

End HandlerFacts.

(** ** Flags and mirror along the runs *)

Section RunFacts.

Import Js.

Lemma UseState_submitFinal_loading s finalWords env :
  loading (fst (UseState.submitFinal s finalWords env)) = false.
Proof.
  unfold UseState.submitFinal. cbv zeta.
  destruct (postWords env finalWords) as [[]|err]; [|reflexivity].
  destruct (onAdded env) as [[[]|err]|]; reflexivity.
Qed.

Lemma UseState_handleValidate_loading st env :
  loading (fst (UseState.handleValidate st env)) = false \/
  loading (fst (UseState.handleValidate st env)) = loading st.
Proof.
  unfold UseState.handleValidate. cbv zeta.
  destruct (negb (Nat.eqb (length (UseState.parsed (text st))) 10));
    [now right|].
  destruct (Nat.ltb 0 (length (UseState.inBatchDupKeys
                                 (UseState.parsed (text st)))));
    [now right|].
  destruct (postValidate env (UseState.parsed (text st))) as [res|err];
    [|now left].
  destruct (Nat.ltb 0 (length (db (default (mkConflicts [] [])
                                           (vConflicts res))))
            || Nat.ltb 0 (length (inBatch (default (mkConflicts [] [])
                                                   (vConflicts res)))));
    [now left|].
  destruct (UseState.submitFinal
              (setLoading true (setConflicts None (setMessage None st)))
              (UseState.buildFinal st) env) as [s1 reqs].
  now left.
Qed.

Lemma UseReducer_submitFinal_loading store state finalWords env :
  loading (UseReducer.dispatchAll store
             (fst (UseReducer.submitFinal state finalWords env))) = false.
Proof.
  unfold UseReducer.submitFinal. cbv zeta.
  destruct (postWords env finalWords) as [[]|err].
  - destruct (onAdded env) as [[[]|err]|]; reflexivity.
  - reflexivity.
Qed.

Lemma dispatchAll_snoc store acts a :
  UseReducer.dispatchAll store (acts ++ [a]) =
  UseReducer.reducer (UseReducer.dispatchAll store acts) a.
Proof. rewrite dispatchAll_app. reflexivity. Qed.

Lemma UseReducer_handleValidate_loading st env :
  loading (UseReducer.dispatchAll st (fst (UseReducer.handleValidate st env)))
  = false \/
  loading (UseReducer.dispatchAll st (fst (UseReducer.handleValidate st env)))
  = loading st.
Proof.
  unfold UseReducer.handleValidate. cbv zeta.
  destruct (negb (Nat.eqb (length (UseReducer.parsed (text st))) 10));
    [now right|].
  left.
  destruct (postValidate env (UseReducer.parsed (text st))) as [res|err];
    [|reflexivity].
  assert (forall acts reqs,
             loading (UseReducer.dispatchAll st
                        (fst ((([UseReducer.SET_MESSAGE None;
                                 UseReducer.SET_CONFLICTS None]
                                  ++ [UseReducer.SET_LOADING true])
                                 ++ acts ++ [UseReducer.SET_LOADING false]),
                              PostValidate (UseReducer.parsed (text st))
                                :: reqs))) = false) as Hsub.
  { intros acts reqs. cbn [fst].
    rewrite app_assoc, dispatchAll_snoc. reflexivity. }
  destruct (ok res), (vConflicts res); try reflexivity;
    (destruct (UseReducer.buildFinal st) as [final|]; [|reflexivity]);
    destruct (UseReducer.submitFinal st final env) as [acts reqs];
    apply Hsub.
Qed.

(** X11. Every handler clears the loading flag before it ends: after any
    sequence of user events, each handled to its end, [loading] is false, so
    the buttons it disables are offered again. In both components. *)
Theorem loading_cleared_after_every_event :
  (forall st, UseState.reachable st -> loading st = false) /\
  (forall st, UseReducer.reachable st -> loading st = false).
Proof.
  split.
  - induction 1 as [|st e _ IH Hen]; [reflexivity|].
    destruct e as [v| | |key v|env|env|env]; cbn [UseState.fire];
      try exact IH.
    + destruct (UseState_handleValidate_loading st env) as [H|H];
        [exact H | now rewrite H].
    + unfold UseState.handleSubmitReplacements.
      destruct (negb (UseState.isFinalValid st)); [exact IH|].
      apply UseState_submitFinal_loading.
    + unfold UseState.load. cbv zeta.
      destruct (getWords env); exact IH.
  - induction 1 as [|st e _ IH Hen]; [reflexivity|].
    destruct e as [v| |k v|env|env]; cbn [UseReducer.fire]; try exact IH.
    + destruct (UseReducer_handleValidate_loading st env) as [H|H];
        [exact H | now rewrite H].
    + unfold UseReducer.onSubmitReplacements.
      destruct (UseReducer.buildFinal st) as [final|]; [|exact IH].
      apply UseReducer_submitFinal_loading.
Qed.

Lemma loading_cleared_after_every_event_witness :
  loading Sample.appleRetryOffline = false.
Proof.
  destruct loading_cleared_after_every_event as [H _].
  apply H. unfold Sample.appleRetryOffline, Sample.appleReview.
  apply UseState.reachable_fire; [apply UseState.reachable_fire|].
  - apply UseState.reachable_fire; [apply UseState.reachable_init|].
    split; [reflexivity | exact I].
  - split; [reflexivity|]. split; vm_compute; reflexivity.
  - split; [vm_compute; reflexivity|]. split; vm_compute; reflexivity.
Defined.

Lemma UseReducer_handlers_keep_mirror st env :
  View.mirror (UseReducer.dispatchAll st (fst (UseReducer.handleValidate st env)))
  = View.mirror st /\
  forall finalWords,
    View.mirror (UseReducer.dispatchAll st
              (fst (UseReducer.submitFinal st finalWords env))) = View.mirror st.
Proof.
  assert (forall store finalWords,
             View.mirror store = View.mirror st ->
             View.mirror (UseReducer.dispatchAll store
                       (fst (UseReducer.submitFinal st finalWords env)))
             = View.mirror st) as Hsub.
  { intros store finalWords Hstore. unfold UseReducer.submitFinal. cbv zeta.
    destruct (postWords env finalWords) as [[]|err].
    - destruct (onAdded env) as [[[]|err]|]; solve [exact Hstore | reflexivity].
    - reflexivity. }
  split; [|intros finalWords; now apply Hsub].
  unfold UseReducer.handleValidate. cbv zeta.
  destruct (negb (Nat.eqb (length (UseReducer.parsed (text st))) 10));
    [reflexivity|].
  destruct (postValidate env (UseReducer.parsed (text st))) as [res|err];
    [|reflexivity].
  destruct (ok res), (vConflicts res); try reflexivity;
    (destruct (UseReducer.buildFinal st) as [final|]; [|reflexivity]);
    specialize (Hsub (UseReducer.dispatchAll st
                        [UseReducer.SET_MESSAGE None;
                         UseReducer.SET_CONFLICTS None;
                         UseReducer.SET_LOADING true])
                     final eq_refl);
    destruct (UseReducer.submitFinal st final env) as [acts reqs];
    cbn [fst] in *;
    rewrite app_assoc, dispatchAll_snoc, dispatchAll_app; exact Hsub.
Qed.

(** X12. The reducer component never fills its saved-words mirror: no
    handler dispatches [SET_SAVED] and no request to [GET /words] is made,
    so after any sequence of user events [savedWords] is empty,
    [savedLoading] false and [savedError] absent. *)
Theorem reducer_mirror_never_loaded :
  (forall st, UseReducer.reachable st ->
              savedWords st = [] /\ savedLoading st = false /\
              savedError st = None) /\
  (forall st env finalWords,
      (GetWords ∉ snd (UseReducer.handleValidate st env)) /\
      (GetWords ∉ snd (UseReducer.submitFinal st finalWords env))).
Proof.
  split.
  - assert (forall st, UseReducer.reachable st -> View.mirror st = ([], false, None))
      as Hmirror.
    { induction 1 as [|st e _ IH Hen]; [reflexivity|].
      destruct e as [v| |k v|env|env]; cbn [UseReducer.fire]; try exact IH.
      - destruct (UseReducer_handlers_keep_mirror st env) as [-> _]. exact IH.
      - unfold UseReducer.onSubmitReplacements.
        destruct (UseReducer.buildFinal st) as [final|]; [|exact IH].
        destruct (UseReducer_handlers_keep_mirror st env) as [_ ->]. exact IH. }
    intros st Hreach. specialize (Hmirror st Hreach).
    unfold View.mirror in Hmirror. injection Hmirror as -> -> ->. now repeat split.
  - intros st env finalWords.
    assert (forall ws, GetWords ∉ snd (UseReducer.submitFinal st ws env))
      as Hsub.
    { intros ws. unfold UseReducer.submitFinal. cbv zeta.
      destruct (postWords env ws) as [[]|err];
        [destruct (onAdded env) as [[[]|err]|]|];
        cbn [snd]; intros Hin; apply list_elem_of_singleton in Hin;
        discriminate. }
    split; [|apply Hsub].
    unfold UseReducer.handleValidate. cbv zeta.
    destruct (negb (Nat.eqb (length (UseReducer.parsed (text st))) 10));
      [intros Hin; inversion Hin|].
    destruct (postValidate env (UseReducer.parsed (text st))) as [res|err].
    + assert (GetWords ∉ [PostValidate (UseReducer.parsed (text st))])
        as Hone.
      { intros Hin. apply list_elem_of_singleton in Hin. discriminate. }
      destruct (ok res), (vConflicts res); try exact Hone;
        (destruct (UseReducer.buildFinal st) as [final|]; [|exact Hone]);
        specialize (Hsub final);
        destruct (UseReducer.submitFinal st final env) as [acts reqs];
        cbn [snd] in *; intros Hin;
        (apply elem_of_cons in Hin as [Hin|Hin];
         [discriminate | now apply Hsub]).
    + cbn [snd]. intros Hin. apply list_elem_of_singleton in Hin.
      discriminate.
Qed.

Lemma reducer_mirror_never_loaded_witness :
  savedWords
    (UseReducer.fire
       (UseReducer.fire initialState (UseReducer.ChangeText Sample.tenWords))
       (UseReducer.Validate Sample.allFine)) = [].
Proof.
  destruct reducer_mirror_never_loaded as [H _].
  apply H. apply UseReducer.reachable_fire.
  - apply UseReducer.reachable_fire; [apply UseReducer.reachable_init|].
    split; [reflexivity | exact I].
  - split; [reflexivity|]. split; vm_compute; reflexivity.
Defined.

End RunFacts.

(** ** The saved-words mirror of the [useState] component *)

Section MirrorFacts.

Import Js.

Lemma savedOf_normal docs : Forall View.normalSaved (UseState.savedOf docs).
Proof.
  unfold UseState.savedOf. apply Forall_fmap, Forall_forall. intros d _.
  split; cbn [word wordLower]; [apply trim_idem | apply toLowerCase_idem].
Qed.

(** X13. Loading the mirror touches nothing but the mirror: text, conflict
    set, replacements, message and loading flag are the same after [load],
    and only [GET /words] is sent. A failed request empties the mirror and
    sets its own error; an answered one clears the error and stores one
    entry per document, with the word trimmed and the key in lowercase; a
    body that is neither an array nor carries a [mine] array gives an empty
    mirror. *)
Theorem load_only_touches_mirror (st : State) (env : Env) :
  let st' := fst (UseState.load st env) in
  View.sameForm st st' /\
  savedLoading st' = false /\
  snd (UseState.load st env) = [GetWords] /\
  (forall f, getWords env = Failed f ->
             savedWords st' = [] /\
             savedError st' = Some "Failed to load saved words") /\
  (forall data, getWords env = Ok data ->
                savedError st' = None /\
                length (savedWords st') = length (UseState.docsOf data) /\
                Forall View.normalSaved (savedWords st') /\
                (data = OtherData \/ data = Envelope None ->
                 savedWords st' = [])).
Proof.
  intros st'. subst st'. unfold UseState.load. cbv zeta.
  destruct (getWords env) as [data|f].
  - split; [repeat split|]. split; [reflexivity|]. split; [reflexivity|].
    split; [discriminate|].
    intros data' [= <-]. split; [reflexivity|]. split; [|split].
    + cbn [fst savedWords setSavedLoading setSavedWords].
      unfold UseState.savedOf. now rewrite length_map.
    + apply savedOf_normal.
    + intros [-> | ->]; reflexivity.
  - split; [repeat split|]. split; [reflexivity|]. split; [reflexivity|].
    split; [|discriminate].
    intros f' _. split; reflexivity.
Qed.

End MirrorFacts.

(** ** The [onAdded] hook *)

Section HookFacts.

(** X15. A rejecting [onAdded] hook counts as a failed submit although the
    words are stored. The optimistic component rolls the form back to the
    snapshot and shows the failure text; the pessimistic component has
    already emptied the form and only replaces the success message by the
    failure text (when the rejection is not itself a 409 with conflicts).
    Neither sends another request. *)
Theorem hook_rejection_after_stored
        (store state : State) (finalWords : list string) (env : Env)
        (err : Failure) :
  postWords env finalWords = Ok tt ->
  onAdded env = Some (Failed err) ->
  (UseReducer.dispatchAll store
     (fst (UseReducer.submitFinal state finalWords env)) =
     setLoading false
       (setMessage (Some (UseReducer.errorMessage err "Submit failed")) state) /\
   snd (UseReducer.submitFinal state finalWords env) = [PostWords finalWords]) /\
  (UseState.conflictResponse err = None ->
   UseState.submitFinal state finalWords env =
     (mkState "" None ∅ (Some (UseState.errorMessage err "Submit failed"))
              false (savedWords state) (savedLoading state) (savedError state),
      [PostWords finalWords])).
Proof.
  intros Hpost Hhook. split.
  - unfold UseReducer.submitFinal. cbv zeta. rewrite Hpost, Hhook.
    split; reflexivity.
  - intros Hplain. unfold UseState.submitFinal. cbv zeta.
    rewrite Hpost, Hhook. unfold UseState.submitCatch. rewrite Hplain.
    reflexivity.
Qed.

Lemma hook_rejection_after_stored_witness :
  text (UseReducer.dispatchAll
          (setText Sample.tenWords initialState)
          (fst (UseReducer.submitFinal
                  (setText Sample.tenWords initialState)
                  (UseState.parsed Sample.tenWords) Sample.hookRejects)))
  = Sample.tenWords /\
  text (fst (UseState.submitFinal
               (setText Sample.tenWords initialState)
               (UseState.parsed Sample.tenWords) Sample.hookRejects)) = "".
Proof.
  destruct (hook_rejection_after_stored
              (setText Sample.tenWords initialState)
              (setText Sample.tenWords initialState)
              (UseState.parsed Sample.tenWords) Sample.hookRejects Thrown
              eq_refl eq_refl) as [[H1 _] H2].
  split.
  - rewrite H1. reflexivity.
  - rewrite H2 by reflexivity. reflexivity.
Defined.

End HookFacts.

(** ** The CSV export *)

Section CsvFacts.

Import Js.

Lemma anyChar_append p a b : anyChar p (a +:+ b) = anyChar p a || anyChar p b.
Proof.
  induction a as [|c a IH]; [reflexivity|].
  change (p c || anyChar p (a +:+ b) = (p c || anyChar p a) || anyChar p b).
  now rewrite IH, orb_assoc.
Qed.

Lemma includes_comma_doubleQuotes s :
  includesChar "," (Dashboard.doubleQuotes s) = includesChar "," s.
Proof.
  unfold includesChar. induction s as [|c s IH]; [reflexivity|].
  cbn [Dashboard.doubleQuotes anyChar].
  destruct (Ascii.eqb c Dashboard.quote) eqn:E.
  - apply Ascii.eqb_eq in E. subst c. cbn [anyChar]. rewrite IH. reflexivity.
  - cbn [anyChar]. now rewrite IH.
Qed.

Lemma doubleQuotes_inj a : forall b,
  Dashboard.doubleQuotes a = Dashboard.doubleQuotes b -> a = b.
Proof.
  induction a as [|c a IH]; intros [|d b]; cbn [Dashboard.doubleQuotes].
  - reflexivity.
  - destruct (Ascii.eqb d Dashboard.quote); discriminate.
  - destruct (Ascii.eqb c Dashboard.quote); discriminate.
  - destruct (Ascii.eqb c Dashboard.quote) eqn:Ec;
      destruct (Ascii.eqb d Dashboard.quote) eqn:Ed.
    + apply Ascii.eqb_eq in Ec, Ed. subst c d.
      intros [= H]. f_equal. now apply IH.
    + intros [= Hd _]. subst d. now rewrite Ascii.eqb_refl in Ed.
    + intros [= Hc _]. subst c. now rewrite Ascii.eqb_refl in Ec.
    + intros [= -> H]. f_equal. now apply IH.
Qed.

Lemma append_snoc_inj (a : string) c : forall b,
  a +:+ String c EmptyString = b +:+ String c EmptyString -> a = b.
Proof.
  induction a as [|x a IH]; intros [|y b] H.
  - reflexivity.
  - cbn in H. injection H as -> H. destruct b; discriminate.
  - cbn in H. injection H as -> H. destruct a; discriminate.
  - cbn in H. injection H as -> H. f_equal. now apply IH.
Qed.

(** X16. The cells of the CSV export can be told apart: two different
    cells never give the same exported field. A cell without a comma is
    exported as it is, quotes and line breaks included; a cell with a comma
    is wrapped in quotes with its own quotes doubled, and still contains
    its comma. With no words the export is the header line alone. *)
Theorem csvCell_injective (toLocaleString : string -> string) :
  (forall a b, Dashboard.csvCell a = Dashboard.csvCell b -> a = b) /\
  (forall c, includesChar "," c = false -> Dashboard.csvCell c = c) /\
  (forall c, includesChar "," c = true ->
             Dashboard.csvCell c =
               String Dashboard.quote (Dashboard.doubleQuotes c)
                 +:+ String Dashboard.quote EmptyString /\
             includesChar "," (Dashboard.csvCell c) = true) /\
  Dashboard.exportCsv toLocaleString [] = "word,addedAt".
Proof.
  assert (forall c, includesChar "," c = true ->
                    includesChar ","
                      (String Dashboard.quote (Dashboard.doubleQuotes c)
                         +:+ String Dashboard.quote EmptyString) = true)
    as Hcomma.
  { intros c Hc. unfold includesChar.
    change (anyChar (Ascii.eqb ",")
              (String Dashboard.quote
                 (Dashboard.doubleQuotes c +:+ String Dashboard.quote ""))
            = true).
    cbn [anyChar]. rewrite anyChar_append.
    pose proof (includes_comma_doubleQuotes c) as Hd.
    unfold includesChar in Hd, Hc. rewrite Hd, Hc.
    now rewrite orb_true_r. }
  split; [|split; [|split]].
  - intros a b. unfold Dashboard.csvCell.
    destruct (includesChar "," a) eqn:Ea; destruct (includesChar "," b) eqn:Eb.
    + intros H.
      change (String Dashboard.quote
                (Dashboard.doubleQuotes a +:+ String Dashboard.quote "") =
              String Dashboard.quote
                (Dashboard.doubleQuotes b +:+ String Dashboard.quote "")) in H.
      injection H as H. apply append_snoc_inj in H.
      now apply doubleQuotes_inj.
    + intros H. rewrite <- H, (Hcomma a Ea) in Eb. discriminate.
    + intros H. rewrite H, (Hcomma b Eb) in Ea. discriminate.
    + trivial.
  - intros c Hc. unfold Dashboard.csvCell. now rewrite Hc.
  - intros c Hc. unfold Dashboard.csvCell. rewrite Hc.
    split; [reflexivity | now apply Hcomma].
  - reflexivity.
Qed.

End CsvFacts.

(** ** Failures of the pessimistic submit, and the error text *)

Section PessimisticFacts.

Import Js.

(** X17. A rejected submit of replacements in the [useState] component
    keeps the text. On HTTP 409 with a conflicts payload the conflict set
    becomes the payload in lowercase and the replacements are reset to the
    empty string under those keys, [__proto__] excepted, for which the
    assignment defines nothing.  A replacement field is offered for each
    key unless [__proto__] is among them; then the conflict editor cannot
    be rendered.  On any other failure conflict set and replacements stay
    as they were and only the message changes. Either way the loading flag
    is cleared and nothing but the post was sent. *)
Theorem submit_replacements_rejected
        (st : State) (env : Env) (f : Failure) :
  UseState.isFinalValid st = true ->
  postWords env (UseState.buildFinal st) = Failed f ->
  let st' := fst (UseState.handleSubmitReplacements st env) in
  snd (UseState.handleSubmitReplacements st env) =
    [PostWords (UseState.buildFinal st)] /\
  text st' = text st /\ loading st' = false /\
  (forall c, UseState.conflictResponse f = Some c ->
     conflicts st' =
       Some (mkConflicts (map toLowerCase (db c))
                         (map toLowerCase (inBatch c))) /\
     (forall k, replacements st' !! k =
                if decide (k ∈ map toLowerCase (db c ++ inBatch c) /\
                           k <> "__proto__")
                then Some "" else None) /\
     message st' = Some UseState.submitConflictMessage /\
     ("__proto__" ∉ map toLowerCase (db c ++ inBatch c) ->
      forall k v, k ∈ db c ++ inBatch c ->
                  UseState.enabled st'
                    (UseState.ChangeReplacement (toLowerCase k) v)) /\
     ("__proto__" ∈ map toLowerCase (db c ++ inBatch c) ->
      UseState.renders st' = false)) /\
  (UseState.conflictResponse f = None ->
     conflicts st' = conflicts st /\
     replacements st' = replacements st /\
     message st' = Some (UseState.errorMessage f "Submit failed")).
Proof.
  intros Hvalid Hpost st'. subst st'.
  unfold UseState.handleSubmitReplacements. rewrite Hvalid. cbn [negb].
  unfold UseState.submitFinal. cbv zeta. rewrite Hpost.
  unfold UseState.submitCatch. cbn [fst snd].
  destruct (UseState.conflictResponse f) as [c0|].
  - split; [reflexivity|]. split; [reflexivity|]. split; [reflexivity|].
    split; [|discriminate].
    intros c [= <-].
    assert (forall k,
               fold_left (fun map k => JsObject.assign map k "")
                 (map toLowerCase (db c0) ++ map toLowerCase (inBatch c0))
                 (∅ : gmap string string) !! k =
               if decide (k ∈ map toLowerCase (db c0 ++ inBatch c0) /\
                          k <> "__proto__")
               then Some "" else None) as Hlookup.
    { intros k. rewrite lookup_fold_assign_empty by apply lookup_empty.
      rewrite lookup_empty, map_app. reflexivity. }
    split; [reflexivity|]. split; [exact Hlookup|]. split; [reflexivity|].
    split.
    + intros Hproto k v Hk. split.
      * unfold UseState.renders, UseState.conflictKeys.
        cbn [conflicts replacements setLoading setMessage setReplacements
             setConflicts db inBatch].
        apply forallb_forall. intros k' Hk'.
        apply list_elem_of_In in Hk'. rewrite <- map_app in Hk'.
        unfold JsObject.get. rewrite Hlookup.
        assert (toLowerCase k' = k') as ->.
        { apply list_elem_of_fmap in Hk' as [x [-> _]].
          apply toLowerCase_idem. }
        rewrite decide_True; [reflexivity|].
        split; [exact Hk' | now intros ->].
      * eexists. split; [reflexivity|].
        unfold UseState.conflictKeys. cbn [db inBatch].
        rewrite <- map_app. apply list_elem_of_fmap. now exists k.
    + intros Hproto. apply not_true_is_false. intros Hr.
      unfold UseState.renders, UseState.conflictKeys in Hr.
      cbn [conflicts replacements setLoading setMessage setReplacements
           setConflicts db inBatch] in Hr.
      rewrite forallb_forall in Hr. specialize (Hr "__proto__").
      unfold JsObject.get in Hr.
      change (toLowerCase "__proto__") with "__proto__" in Hr.
      rewrite Hlookup, decide_False in Hr by tauto.
      rewrite bool_decide_eq_true_2 in Hr by apply proto_inherited.
      discriminate Hr. rewrite <- map_app. now apply list_elem_of_In.
  - split; [reflexivity|]. split; [reflexivity|]. split; [reflexivity|].
    split; [discriminate|]. intros _. repeat split.
Qed.

Lemma submit_replacements_rejected_witness :
  conflicts (fst (UseState.handleSubmitReplacements
                    (setText Sample.tenWords initialState)
                    Sample.lionConflict))
  = Some (mkConflicts [] ["lion"]).
Proof.
  destruct (submit_replacements_rejected
              (setText Sample.tenWords initialState) Sample.lionConflict
              (ResponseError 409 (mkErrorData (Some "Duplicate words")
                                              (Some (mkConflicts [] ["lion"])))))
    as (_ & _ & _ & H & _).
  - vm_compute. reflexivity.
  - reflexivity.
  - destruct (H (mkConflicts [] ["lion"]) eq_refl) as [-> _]. reflexivity.
Defined.

(** X18. The error text shown after a failed request is the same in both
    components although their [isApiError] tests differ: the [error] field
    of the response when it is a non-empty string, else the fallback; an
    error without a response always gives the fallback, and the text is
    never empty for a non-empty fallback. *)
Theorem errorMessage_agrees (err : Failure) (fallback : string) :
  UseState.errorMessage err fallback = UseReducer.errorMessage err fallback /\
  (forall status e conflicts,
      err = ResponseError status (mkErrorData (Some e) conflicts) ->
      e <> "" -> UseState.errorMessage err fallback = e) /\
  (responseErrorText err = None \/ responseErrorText err = Some "" ->
   UseState.errorMessage err fallback = fallback) /\
  (fallback <> "" -> UseState.errorMessage err fallback <> "").
Proof.
  split; [|split; [|split]].
  - destruct err; reflexivity.
  - intros status e c -> He. unfold UseState.errorMessage.
    cbn [UseState.isApiError responseErrorText error orElse].
    now rewrite (proj2 (truthy_true e) He).
  - intros Hnone. unfold UseState.errorMessage.
    destruct (UseState.isApiError err); [|reflexivity].
    destruct Hnone as [-> | ->]; reflexivity.
  - apply UseState_errorMessage_nonempty.
Qed.

End PessimisticFacts.

(** ** The two split patterns *)

Section PatternFacts.

Import Js.

Lemma delimiter_inclusion c :
  (UseState.isDelimiter c = true -> UseReducer.isDelimiter c = true) /\
  (isWhiteSpace c = true -> UseReducer.isDelimiter c = true).
Proof.
  destruct c as [[] [] [] [] [] [] [] []]; vm_compute; split;
    intros H; solve [reflexivity | discriminate H].
Qed.

(** Cutting the input at a delimiter cuts the runs. *)
Lemma runsFrom_cut d a : forall tok c b,
  d c = true ->
  Spec.runsFrom d tok (a +:+ String c b) =
  Spec.runsFrom d tok a ++ Spec.runsFrom d EmptyString b.
Proof.
  induction a as [|x a IH]; intros tok c b Hc.
  - change ("" +:+ String c b) with (String c b).
    cbn [Spec.runsFrom]. rewrite Hc. destruct tok; reflexivity.
  - change (String x a +:+ String c b) with (String x (a +:+ String c b)).
    cbn [Spec.runsFrom]. destruct (d x).
    + rewrite IH by exact Hc. destruct tok; reflexivity.
    + now apply IH.
Qed.

(** A finer pattern splits what the coarser one has split. *)
Lemma runs_refine (d1 d2 : ascii -> bool) :
  (forall c, d1 c = true -> d2 c = true) ->
  forall s tok,
    Spec.runs d2 (tok +:+ s) =
    concat (map (Spec.runs d2) (Spec.runsFrom d1 tok s)).
Proof.
  intros Hsub. induction s as [|c s IH]; intros tok.
  - rewrite append_empty_r. cbn [Spec.runsFrom].
    destruct tok; [reflexivity|]. cbn [map concat]. now rewrite app_nil_r.
  - cbn [Spec.runsFrom]. destruct (d1 c) eqn:Ec.
    + unfold Spec.runs at 1. rewrite runsFrom_cut by now apply Hsub.
      specialize (IH EmptyString). change ("" +:+ s) with s in IH.
      fold (Spec.runs d2 s). rewrite IH.
      destruct tok; [reflexivity|]. reflexivity.
    + rewrite <- IH. f_equal. now rewrite append_assoc_string.
Qed.

Lemma runsFrom_nonempty d s : forall tok,
  Forall (fun t => t <> "") (Spec.runsFrom d tok s).
Proof.
  induction s as [|c s IH]; intros tok; cbn [Spec.runsFrom].
  - destruct tok; [constructor | now repeat constructor].
  - destruct (d c); [|apply IH].
    destruct tok; [apply IH | constructor; [discriminate | apply IH]].
Qed.

Lemma anyChar_weaken (p q : ascii -> bool) s :
  (forall c, p c = true -> q c = true) ->
  anyChar q s = false -> anyChar p s = false.
Proof.
  intros Hpq. induction s as [|c s IH]; [trivial|]. cbn [anyChar].
  intros H. apply orb_false_iff in H as [Hc Hs].
  rewrite (IH Hs), orb_false_r.
  destruct (p c) eqn:E; [|reflexivity]. now rewrite (Hpq c E) in Hc.
Qed.

Lemma trim_without_white_space t :
  anyChar isWhiteSpace t = false -> trim t = t.
Proof.
  intros Hfree. unfold trim.
  assert (trimStart t = t) as ->.
  { destruct t as [|c t]; [reflexivity|]. cbn [anyChar] in Hfree.
    apply orb_false_iff in Hfree as [Hc _]. cbn [trimStart]. now rewrite Hc. }
  induction t as [|c t IH]; [reflexivity|]. cbn [anyChar] in Hfree.
  apply orb_false_iff in Hfree as [Hc Ht]. cbn [trimEnd].
  rewrite (IH Ht), Hc. destruct t; reflexivity.
Qed.

(** A string is its trim between two stretches of white space. *)
Lemma trimStart_split u :
  exists pre, u = pre +:+ trimStart u /\ View.allWhiteSpace pre.
Proof.
  induction u as [|c u (pre & Hu & Hpre)].
  - exists EmptyString. now split.
  - cbn [trimStart]. destruct (isWhiteSpace c) eqn:Ec.
    + exists (String c pre). split.
      * rewrite append_cons. now f_equal.
      * unfold View.allWhiteSpace in *. cbn [anyChar]. now rewrite Ec, Hpre.
    + exists EmptyString. now split.
Qed.

Lemma trimEnd_split v :
  exists post, v = trimEnd v +:+ post /\ View.allWhiteSpace post.
Proof.
  induction v as [|c v (post & Hv & Hpost)].
  - exists EmptyString. now split.
  - cbn [trimEnd]. destruct (trimEnd v) as [|c' r] eqn:E.
    + change ("" +:+ post) with post in Hv. subst v.
      destruct (isWhiteSpace c) eqn:Ec.
      * exists (String c post). split; [reflexivity|].
        unfold View.allWhiteSpace in *. cbn [anyChar]. now rewrite Ec, Hpost.
      * exists post. now split.
    + exists post. split; [|exact Hpost]. rewrite append_cons. now f_equal.
Qed.

Lemma runsFrom_skip_white_space pre : forall s,
  View.allWhiteSpace pre ->
  Spec.runsFrom UseReducer.isDelimiter EmptyString (pre +:+ s) =
  Spec.runsFrom UseReducer.isDelimiter EmptyString s.
Proof.
  unfold View.allWhiteSpace.
  induction pre as [|c pre IH]; intros s Hpre; [reflexivity|].
  cbn [anyChar] in Hpre. apply orb_false_iff in Hpre as [Hc Hpre].
  apply negb_false_iff in Hc.
  change (String c pre +:+ s) with (String c (pre +:+ s)).
  cbn [Spec.runsFrom].
  rewrite (proj2 (delimiter_inclusion c) Hc). now apply IH.
Qed.

Lemma runsFrom_trailing_white_space post : forall tok,
  View.allWhiteSpace post ->
  Spec.runsFrom UseReducer.isDelimiter tok post =
  match tok with EmptyString => [] | _ => [tok] end.
Proof.
  unfold View.allWhiteSpace.
  induction post as [|c post IH]; intros tok Hpost; [reflexivity|].
  cbn [anyChar] in Hpost. apply orb_false_iff in Hpost as [Hc Hpost].
  apply negb_false_iff in Hc. cbn [Spec.runsFrom].
  rewrite (proj2 (delimiter_inclusion c) Hc), (IH EmptyString Hpost).
  destruct tok; reflexivity.
Qed.

Lemma runs_of_padded_word u :
  anyChar UseReducer.isDelimiter (trim u) = false ->
  Spec.runs UseReducer.isDelimiter u =
  match trim u with EmptyString => [] | t => [t] end.
Proof.
  intros Hfree. unfold trim in *.
  destruct (trimStart_split u) as (pre & Hu & Hpre).
  destruct (trimEnd_split (trimStart u)) as (post & Hv & Hpost).
  unfold Spec.runs. rewrite Hu at 1.
  rewrite runsFrom_skip_white_space by exact Hpre.
  rewrite Hv at 1. rewrite runsFrom_stretch by exact Hfree.
  change ("" +:+ trimEnd (trimStart u)) with (trimEnd (trimStart u)).
  rewrite runsFrom_trailing_white_space by exact Hpost.
  destruct (trimEnd (trimStart u)); reflexivity.
Qed.

Lemma reducer_runs_clean s :
  filter (fun t => t <> "") (map trim (Spec.runs UseReducer.isDelimiter s)) =
  Spec.runs UseReducer.isDelimiter s.
Proof.
  unfold Spec.runs.
  pose proof (runsFrom_nonempty UseReducer.isDelimiter s EmptyString) as Hne.
  pose proof (runsFrom_no_delimiter UseReducer.isDelimiter s EmptyString
                                    eq_refl) as Hfree.
  induction Hne as [|t l Ht _ IH]; [reflexivity|].
  apply Forall_cons in Hfree as [Hfree_t Hfree_l].
  cbn [map].
  rewrite (trim_without_white_space t)
    by (eapply anyChar_weaken; [|exact Hfree_t];
        intros c; apply delimiter_inclusion).
  rewrite filter_cons_True by exact Ht. now rewrite IH.
Qed.

(** X19. The two split patterns give the same words when no word
    contains white space or a double quote: if every word found by the
    [useState] component is free of the reducer component's delimiters, the
    two [parsed] lists are equal. (With a word such as [ice cream] they
    differ: the reducer component splits it in two.) *)
Theorem parsed_agree_without_inner_space (raw : string) :
  Forall (fun t => anyChar UseReducer.isDelimiter t = false)
         (View.allWords raw) ->
  UseReducer.parsed raw = UseState.parsed raw.
Proof.
  intros Hwords. unfold UseReducer.parsed, UseState.parsed.
  f_equal. fold (View.allWords raw).
  unfold UseReducer.normalize. rewrite tokens_of_split, reducer_runs_clean.
  unfold View.allWords, UseState.normalize in *.
  rewrite tokens_of_split in *.
  unfold Spec.runs at 1.
  rewrite <- (append_empty_r raw) at 1.
  change (Spec.runsFrom UseReducer.isDelimiter "" (raw +:+ ""))
    with (Spec.runs UseReducer.isDelimiter (raw +:+ "")).
  rewrite append_empty_r.
  change raw with ("" +:+ raw) at 1.
  rewrite (runs_refine UseState.isDelimiter UseReducer.isDelimiter)
    by (intros c; apply delimiter_inclusion).
  fold (Spec.runs UseState.isDelimiter raw) in *.
  induction (Spec.runs UseState.isDelimiter raw) as [|u us IH];
    [reflexivity|].
  cbn [map concat] in *.
  destruct (decide (trim u = "")) as [E|E].
  - rewrite filter_cons_False in * by (intros H; now apply H).
    rewrite runs_of_padded_word by (now rewrite E). rewrite E.
    cbn [app]. now apply IH.
  - rewrite filter_cons_True in * by exact E.
    apply Forall_cons in Hwords as [Hu Hus].
    rewrite runs_of_padded_word by exact Hu.
    destruct (trim u) as [|c t] eqn:Et; [now contradiction E|].
    cbn [app]. f_equal. now apply IH.
Qed.

Lemma parsed_agree_without_inner_space_witness :
  UseReducer.parsed Sample.tenWords = UseState.parsed Sample.tenWords.
Proof.
  apply parsed_agree_without_inner_space.
  apply (bool_decide_unpack _). vm_compute. exact I.
Defined.

End PatternFacts.

(** ** Keys of the saved-words mirror *)

Section MirrorKeyFacts.

Import Js.

Lemma length_append (a b : string) :
  String.length (a +:+ b) = String.length a + String.length b.
Proof.
  induction a as [|c a IH]; [reflexivity|].
  rewrite append_cons. cbn [String.length]. now rewrite IH.
Qed.

Lemma length_toLowerCase s : String.length (toLowerCase s) = String.length s.
Proof. induction s as [|c s IH]; [reflexivity|]. cbn. now rewrite IH. Qed.

Lemma length_zero_empty s : String.length s = 0 -> s = "".
Proof. destruct s; [reflexivity | discriminate]. Qed.

Lemma trim_same_length w :
  String.length (trim w) = String.length w -> trim w = w.
Proof.
  unfold trim. intros Hlen.
  destruct (trimStart_split w) as (pre & Hw & _).
  destruct (trimEnd_split (trimStart w)) as (post & Hv & _).
  assert (String.length w =
          String.length pre + (String.length (trimEnd (trimStart w))
                               + String.length post)) as Hsum.
  { rewrite Hw at 1. rewrite length_append. rewrite Hv at 1.
    now rewrite length_append. }
  assert (pre = "") as Hpre by (apply length_zero_empty; lia).
  assert (post = "") as Hpost by (apply length_zero_empty; lia).
  subst pre post. rewrite append_empty_r in Hv.
  change ("" +:+ trimStart w) with (trimStart w) in Hw. congruence.
Qed.

Lemma savedOf_cons d docs :
  UseState.savedOf (d :: docs) =
  mkSaved (trim (View.sentWord d))
          (toLowerCase (orElse (docWordLower d)
                               (toLowerCase (View.sentWord d))))
    :: UseState.savedOf docs.
Proof. reflexivity. Qed.

(** X14. The key of a mirror entry. When the document has a non-empty
    [wordLower], the key is its lowercase, whatever the word. Otherwise the
    key is the lowercase of the word as the server sent it, untrimmed,
    while the stored word is trimmed: the key is the lowercase of the
    stored word exactly when the sent word had no white space around it,
    and always is so after trimming. *)
Theorem mirror_keys (docs : list WordDoc) :
  Forall2
    (fun d sw =>
       word sw = trim (View.sentWord d) /\
       (forall l, docWordLower d = Some l -> l <> "" ->
                  wordLower sw = toLowerCase l) /\
       (View.noWordLower d ->
        trim (wordLower sw) = toLowerCase (word sw) /\
        (wordLower sw = toLowerCase (word sw) <->
         trim (View.sentWord d) = View.sentWord d)))
    docs (UseState.savedOf docs).
Proof.
  induction docs as [|d docs IH]; [constructor|].
  rewrite savedOf_cons. constructor; [|exact IH].
  cbn [word wordLower]. split; [reflexivity|]. split.
  - intros l -> Hl. unfold orElse at 1.
    now rewrite (proj2 (truthy_true l) Hl).
  - intros Hmissing.
    assert (orElse (docWordLower d) (toLowerCase (View.sentWord d))
            = toLowerCase (View.sentWord d)) as ->
      by (destruct Hmissing as [-> | ->]; reflexivity).
    rewrite toLowerCase_idem. split.
    + symmetry. apply toLowerCase_trim.
    + split.
      * intros Hkey. apply trim_same_length.
        rewrite <- (length_toLowerCase (trim (View.sentWord d))), <- Hkey.
        apply length_toLowerCase.
      * intros Htrim. now rewrite Htrim.
Qed.

Lemma mirror_keys_witness :
  UseState.savedOf [mkDoc (Some " Lion ") None] = [mkSaved "Lion" " lion "] /\
  trim " lion " = toLowerCase "Lion".
Proof.
  pose proof (mirror_keys [mkDoc (Some " Lion ") None]) as H.
  apply Forall2_cons_inv_l in H as (sw & rest & (Hw & _ & Hkey) & _ & E).
  split; [vm_compute; reflexivity|].
  destruct (Hkey (or_introl eq_refl)) as [Htrim _].
  assert (sw = mkSaved "Lion" " lion ") as ->
    by (vm_compute in E; now injection E as <- _).
  exact Htrim.
Defined.

End MirrorKeyFacts.

(** ** Instances *)

Section Instances.

Import Js.

Lemma replacement_edit_effect_witness :
  UseReducer.buildFinal
    (UseReducer.reducer
       (setText Sample.appleWords initialState)
       (UseReducer.onChangeReplacement "Apple" "pear"
          (setText Sample.appleWords initialState))) =
  UseReducer.buildFinal (setText Sample.appleWords initialState).
Proof.
  destruct (replacement_edit_effect
              (setText Sample.appleWords initialState) "Apple" "pear")
    as (_ & _ & H).
  apply H. vm_compute. discriminate.
Defined.

Lemma occurrenceMap_entries_witness :
  "cat" ∈ UseState.inBatchDupKeys ["Cat"; "dog"; "cat"].
Proof.
  destruct (occurrenceMap_entries ["Cat"; "dog"; "cat"]) as (_ & _ & H).
  apply (H "cat" ["Cat"; "cat"]).
  - vm_compute. reflexivity.
  - vm_compute. lia.
Defined.

Lemma load_only_touches_mirror_witness :
  savedWords (fst (UseState.load Sample.appleReview Sample.offline)) = [] /\
  savedError (fst (UseState.load Sample.appleReview Sample.offline)) =
    Some "Failed to load saved words".
Proof.
  destruct (load_only_touches_mirror Sample.appleReview Sample.offline)
    as (_ & _ & _ & H & _).
  exact (H RequestError eq_refl).
Defined.

Lemma csvCell_injective_witness :
  includesChar "," (Dashboard.csvCell "1/2/2024, 3:04 PM") = true.
Proof.
  destruct (csvCell_injective (fun s => s)) as (_ & _ & H & _).
  destruct (H "1/2/2024, 3:04 PM") as [_ Hc]; [reflexivity | exact Hc].
Defined.

Lemma errorMessage_agrees_witness :
  UseState.errorMessage
    (ResponseError 409 (mkErrorData (Some "Duplicate words") None))
    "Submit failed" = "Duplicate words".
Proof.
  destruct (errorMessage_agrees
              (ResponseError 409 (mkErrorData (Some "Duplicate words") None))
              "Submit failed") as (_ & H & _).
  apply (H 409 "Duplicate words" None); [reflexivity | discriminate].
Defined.

End Instances.
